(** * The contacts back end: handlers of the REST service over one SQLite table

    The service is an Express application with six routes.  Each handler
    reads its input from the request, runs at most one prepared statement
    on the [contacts] table and answers with the envelope [{code, msg, data}]
    built by [sendResponse].

    The development has four layers, in the order of the file:
    - [Js]: the JavaScript values and built-ins the handlers use
      (truthiness, [||], [String.prototype.includes], [isNaN]);
    - [Sqlite]: the [contacts] table and the five statements, as the
      handlers observe them through better-sqlite3;
    - [App]: the constants, [sendResponse], [validateContactInput] and
      the route handlers;
    - [Logger]: the level of the logger and what its transports write;
    then the properties of the handlers. *)

From Stdlib Require Import ZArith List String Ascii Bool Lia DecimalString.
From Stdlib Require Import Sorting.Sorted Sorting.Permutation.
Import ListNotations.

Local Open Scope string_scope.
Local Open Scope Z_scope.

(* ================================================================== *)
(** ** Scanning of character strings *)
(* ================================================================== *)

Module Scan.

(** A string is a sequence of code units; [code c] is the unit's number. *)
Definition code (c : ascii) : N := N_of_ascii c.

Definition is_digit (c : ascii) : bool :=
  ((48 <=? code c) && (code c <=? 57))%N.

Definition digit_value (c : ascii) : Z := Z.of_N (code c) - 48.

(** Longest prefix whose characters satisfy [p], and what follows it. *)
Fixpoint span (p : ascii -> bool) (s : string) : string * string :=
  match s with
  | EmptyString => (EmptyString, EmptyString)
  | String c r =>
      if p c then let (a, b) := span p r in (String c a, b)
      else (EmptyString, s)
  end.

Fixpoint skip (p : ascii -> bool) (s : string) : string :=
  match s with
  | EmptyString => EmptyString
  | String c r => if p c then skip p r else s
  end.

Fixpoint all (p : ascii -> bool) (s : string) : bool :=
  match s with
  | EmptyString => true
  | String c r => p c && all p r
  end.

(** Value of a run of decimal digits, most significant first. *)
Fixpoint digits_value (acc : Z) (s : string) : Z :=
  match s with
  | EmptyString => acc
  | String c r => digits_value (10 * acc + digit_value c) r
  end.

(** An optional sign: [true] for a minus. *)
Definition scan_sign (s : string) : bool * string :=
  match s with
  | String c r =>
      if Ascii.eqb c "-" then (true, r)
      else if Ascii.eqb c "+" then (false, r)
      else (false, s)
  | EmptyString => (false, s)
  end.

Definition is_e (c : ascii) : bool :=
  ((code c =? 101) || (code c =? 69))%N.

(** An unsigned decimal literal at the head of [s]: digits, an optional
    point with digits, at least one digit in all, and an optional
    exponent ([e] or [E], an optional sign, at least one digit).  The
    result is the mantissa [m] and the power of ten [e] of the value
    [m * 10^e], with the rest of the string.  An exponent mark that no
    digit follows makes the literal ill-formed. *)
Definition scan_decimal (s : string) : option (Z * Z * string) :=
  let (ip, r1) := span is_digit s in
  let (fp, r2) :=
    match r1 with
    | String c r =>
        if Ascii.eqb c "." then span is_digit r else (EmptyString, r1)
    | EmptyString => (EmptyString, r1)
    end in
  if (String.length ip + String.length fp =? 0)%nat then None
  else
    let m := digits_value 0 (ip ++ fp) in
    let shift := Z.of_nat (String.length fp) in
    match r2 with
    | String c r3 =>
        if is_e c then
          let (eneg, r4) := scan_sign r3 in
          let (ed, r5) := span is_digit r4 in
          match ed with
          | EmptyString => None
          | _ =>
              let ev := digits_value 0 ed in
              Some (m, (if eneg then - ev else ev) - shift, r5)
          end
        else Some (m, - shift, r2)
    | EmptyString => Some (m, - shift, r2)
    end.

(** [strip_prefix p s] is what follows [p] in [s], when [s] starts with [p]. *)
Fixpoint strip_prefix (p s : string) : option string :=
  match p, s with
  | EmptyString, _ => Some s
  | String a p', String b s' =>
      if Ascii.eqb a b then strip_prefix p' s' else None
  | String _ _, EmptyString => None
  end.

End Scan.

(* ================================================================== *)
(** ** JavaScript values and built-ins *)
(* ================================================================== *)

Module Js.
Import Scan.

(** The values a field of a JSON request body can hold, arrays and
    objects apart: a field that is missing reads as [undefined].  A
    number is given by its integer value. *)
Inductive JsValue : Type :=
| JUndefined
| JNull
| JBool (b : bool)
| JNum (z : Z)
| JStr (s : string).

(** ToBoolean. *)
Definition truthy (v : JsValue) : bool :=
  match v with
  | JUndefined | JNull => false
  | JBool b => b
  | JNum z => negb (z =? 0)
  | JStr s => negb (s =? "")%string
  end.

(** [a || b]. *)
Definition js_or (a b : JsValue) : JsValue := if truthy a then a else b.

Definition is_null (v : JsValue) : bool :=
  match v with JNull => true | _ => false end.

(** [s.includes(sub)]. *)
Fixpoint includes (s sub : string) : bool :=
  String.prefix sub s
  || match s with
     | EmptyString => false
     | String _ r => includes r sub
     end.

(** An exception object; the handlers read its [message]. *)
Record JsError : Type := { message : string }.

(** White space of StringToNumber among the code units below 256:
    TAB, LF, VT, FF, CR, SP and NBSP. *)
Definition is_white_space (c : ascii) : bool :=
  (((9 <=? code c) && (code c <=? 13)) || (code c =? 32) || (code c =? 160))%N.

Definition is_hex_digit (c : ascii) : bool :=
  (is_digit c
   || ((97 <=? code c) && (code c <=? 102))
   || ((65 <=? code c) && (code c <=? 70)))%N.

Definition is_octal_digit (c : ascii) : bool :=
  ((48 <=? code c) && (code c <=? 55))%N.

Definition is_binary_digit (c : ascii) : bool :=
  ((code c =? 48) || (code c =? 49))%N.

(** [0x], [0o] and [0b] literals (either case of the letter), which take
    no sign; the result is what follows the digits. *)
Definition scan_non_decimal (s : string) : option string :=
  match s with
  | String "0" (String c r) =>
      let digit :=
        if ((code c =? 120) || (code c =? 88))%N then Some is_hex_digit
        else if ((code c =? 111) || (code c =? 79))%N then Some is_octal_digit
        else if ((code c =? 98) || (code c =? 66))%N then Some is_binary_digit
        else None in
      match digit with
      | Some p =>
          match span p r with
          | (EmptyString, _) => None
          | (_, rest) => Some rest
          end
      | None => None
      end
  | _ => None
  end.

Definition then_white (o : option string) : bool :=
  match o with
  | Some rest => all is_white_space rest
  | None => false
  end.

(** Whether a string, its leading white space removed, is a
    StrNumericLiteral followed by white space only. *)
Definition is_numeric_literal (t : string) : bool :=
  then_white (scan_non_decimal t)
  || (let (_, u) := scan_sign t in
      then_white (strip_prefix "Infinity" u)
      || then_white
           (match scan_decimal u with
            | Some (_, _, rest) => Some rest
            | None => None
            end)).

(** [isNaN(s)] for a string [s]: [Number(s)] is [NaN] unless [s] is
    empty, white space, or a numeric literal with white space around. *)
Definition isNaN (s : string) : bool :=
  let t := skip is_white_space s in
  match t with
  | EmptyString => false
  | _ => negb (is_numeric_literal t)
  end.

End Js.

(* ================================================================== *)
(** ** The contacts table, as better-sqlite3 shows it to the handlers *)
(* ================================================================== *)

Module Sqlite.
Import Scan.
Import Js.

(** A value held by a column or bound to a [?] of a statement. *)
Inductive SqlValue : Type :=
| SqlNull
| SqlNumber (z : Z)
| SqlText (s : string).

(** A row of
    [contacts(id INTEGER PRIMARY KEY AUTOINCREMENT, name TEXT NOT NULL,
     phone TEXT NOT NULL, email TEXT, address TEXT,
     created_at DATETIME DEFAULT CURRENT_TIMESTAMP)].
    [created_at] holds the text ['YYYY-MM-DD HH:MM:SS'] that
    [CURRENT_TIMESTAMP] yields at the insert. *)
Record Row : Type := mkRow {
  id : Z;
  name : SqlValue;
  phone : SqlValue;
  email : SqlValue;
  address : SqlValue;
  created_at : string
}.

(** The table: its rows in the order of a table scan (ascending rowid),
    and [seq], the largest rowid the table ever held, which
    AUTOINCREMENT keeps in [sqlite_sequence]. *)
Record Db : Type := mkDb {
  rows : list Row;
  seq : Z
}.

Definition empty_db : Db := {| rows := []; seq := 0 |}.

(** What a call into the store does: it returns or it throws. *)
Inductive Outcome (A : Type) : Type :=
| Returned (a : A)
| Thrown (e : JsError).
Arguments Returned {A} a.
Arguments Thrown {A} e.

(** White space the numeric conversion of SQLite skips:
    TAB, LF, VT, FF, CR and SP. *)
Definition is_space (c : ascii) : bool :=
  (((9 <=? code c) && (code c <=? 13)) || (code c =? 32))%N.

(** The text as a C string: what stands before its first NUL. *)
Fixpoint c_string (s : string) : string :=
  match s with
  | EmptyString => EmptyString
  | String c r =>
      if (code c =? 0)%N then EmptyString else String c (c_string r)
  end.

(** A decimal literal at the head of [s], as the numeric conversion of
    SQLite reads it: the digits before the point, those after it,
    whether there is a point, the exponent (its sign and digits) when
    there is one, and the rest of the text.  At least one digit is
    required in all, and at least one after an exponent mark. *)
Definition scan_real (s : string)
  : option (string * string * bool * option (bool * string) * string) :=
  let (ip, r1) := span is_digit s in
  let '(point, fp, r2) :=
    match r1 with
    | String c r =>
        if Ascii.eqb c "."
        then let (fp, r2) := span is_digit r in (true, fp, r2)
        else (false, EmptyString, r1)
    | EmptyString => (false, EmptyString, r1)
    end in
  if (String.length ip + String.length fp =? 0)%nat then None
  else
    match r2 with
    | String c r3 =>
        if is_e c then
          let (eneg, r4) := scan_sign r3 in
          let (ed, r5) := span is_digit r4 in
          match ed with
          | EmptyString => None
          | _ => Some (ip, fp, point, Some (eneg, ed), r5)
          end
        else Some (ip, fp, point, None, r2)
    | EmptyString => Some (ip, fp, point, None, r2)
    end.

(** The conversion keeps the digits of a literal in a 64-bit
    significand [s] while [s] is below this limit,
    [(LARGEST_UINT64 - 9) / 10]; the digits after that are dropped. *)
Definition significand_limit : Z := (2 ^ 64 - 1 - 9) / 10.

(** Digits before the point: a digit that is dropped moves the point,
    counted in [d]. *)
Fixpoint integer_digits (s d : Z) (ds : string) : Z * Z :=
  match ds with
  | EmptyString => (s, d)
  | String c r =>
      if s <? significand_limit
      then integer_digits (10 * s + digit_value c) d r
      else integer_digits s (d + 1) r
  end.

(** Digits after the point: a digit that is kept moves the point. *)
Fixpoint fraction_digits (s d : Z) (ds : string) : Z * Z :=
  match ds with
  | EmptyString => (s, d)
  | String c r =>
      if s <? significand_limit
      then fraction_digits (10 * s + digit_value c) (d - 1) r
      else fraction_digits s d r
  end.

(** Digits of the exponent, which is capped. *)
Fixpoint exponent_digits (e : Z) (ds : string) : Z :=
  match ds with
  | EmptyString => e
  | String c r =>
      exponent_digits (if e <? 10000 then 10 * e + digit_value c else 10000) r
  end.

(** The exponent [e] with [2^e <= p/q < 2^(e+1)], for positive [p], [q]. *)
Definition floor_log2_ratio (p q : Z) : Z :=
  let e0 := Z.log2 p - Z.log2 q in
  if p * 2 ^ Z.max 0 (- e0) <? q * 2 ^ Z.max 0 e0 then e0 - 1 else e0.

(** [p/q / 2^k] rounded to the nearest integer, ties to the even one. *)
Definition round_ratio (p q k : Z) : Z :=
  let num := p * 2 ^ Z.max 0 (- k) in
  let den := q * 2 ^ Z.max 0 k in
  let n := num / den in
  let r := num mod den in
  if (den <? 2 * r) || ((den =? 2 * r) && Z.odd n) then n + 1 else n.

(** The integer that the double nearest to [p/q] is, when it is one
    ([p >= 0], [q > 0]): a double has 53 significant bits, and a value
    below half the least double is zero. *)
Definition double_integer (p q : Z) : option Z :=
  if p =? 0 then Some 0
  else
    let e := floor_log2_ratio p q in
    if e <? -1075 then Some 0
    else if e <? -1 then None
    else
      let k := e - 52 in
      let n := round_ratio p q k in
      if 0 <=? k then Some (n * 2 ^ k)
      else if n mod 2 ^ (- k) =? 0 then Some (n / 2 ^ (- k))
      else None.

(** The integer that the double of the literal [s * 10^e] is, when it
    is one.  Beyond [10^19] the value is above every rowid, and below
    [10^-400] it is zero: the powers are not computed there. *)
Definition real_integer (s e : Z) : option Z :=
  if s =? 0 then Some 0
  else if 19 <? e then None
  else if e <? -400 then Some 0
  else double_integer (s * 10 ^ Z.max 0 e) (10 ^ Z.max 0 (- e)).

(** [WHERE id = ?] with a text bound to [?]: the comparison applies
    NUMERIC affinity to the text, read up to its first NUL.  A text
    that is a decimal literal with white space around is converted: a
    literal of digits only to its integer, when that fits 64 bits; a
    literal with a point or an exponent to a double, and to the integer
    which that double is, when it is one that lies within the 64-bit
    range.  Any other text equals no rowid.  The double is the one
    nearest to the value of the significand that SQLite keeps. *)
Definition text_to_rowid (s : string) : option Z :=
  let s1 := skip is_space (c_string s) in
  let (neg, s2) := scan_sign s1 in
  match scan_real s2 with
  | Some (ip, fp, point, ex, rest) =>
      if all is_space rest then
        match point, ex with
        | false, None =>
            let v := digits_value 0 ip in
            let v := if neg then - v else v in
            if (- 2 ^ 63 <=? v) && (v <=? 2 ^ 63 - 1) then Some v else None
        | _, _ =>
            let (s', d') := integer_digits 0 0 ip in
            let (s'', d) := fraction_digits s' d' fp in
            let e :=
              match ex with
              | Some (eneg, ed) =>
                  let v := exponent_digits 0 ed in if eneg then - v else v
              | None => 0
              end in
            match real_integer s'' (e + d) with
            | Some k =>
                let v := if neg then - k else k in
                if (- 2 ^ 63 <? v) && (v <? 2 ^ 63 - 1) then Some v else None
            | None => None
            end
        end
      else None
  | None => None
  end.

Definition matches (key : option Z) (r : Row) : bool :=
  match key with
  | Some k => id r =? k
  | None => false
  end.

(** How better-sqlite3 binds one JavaScript value to a [?]:
    [null] and [undefined] as NULL, a number as a double, a string as
    text; a boolean is refused with a TypeError. *)
Definition bind_error : JsError :=
  {| message := "SQLite3 can only bind numbers, strings, bigints, buffers, and null" |}.

Definition bind_value (v : JsValue) : Outcome SqlValue :=
  match v with
  | JUndefined | JNull => Returned SqlNull
  | JNum z => Returned (SqlNumber z)
  | JStr s => Returned (SqlText s)
  | JBool _ => Thrown bind_error
  end.

(** The decimal digits of a natural number. *)
Definition decimal (a : Z) : string :=
  NilZero.string_of_uint (N.to_uint (Z.to_N a)).

Fixpoint strip_zeros (rev_digits : string) : string :=
  match rev_digits with
  | String c r => if Ascii.eqb c "0" then strip_zeros r else rev_digits
  | EmptyString => EmptyString
  end.

Fixpoint reverse (acc s : string) : string :=
  match s with
  | EmptyString => acc
  | String c r => reverse (String c acc) r
  end.

Definition two_digits (x : Z) : string :=
  if x <? 10 then "0" ++ decimal x else decimal x.

(** The text of a double with an integer value, as SQLite renders a
    REAL ([%!.15g]): fifteen significant digits, at least one digit
    after the point, and an exponent from [10^15] on. *)
Definition real_text (z : Z) : string :=
  let a := match double_integer (Z.abs z) 1 with
           | Some k => k
           | None => Z.abs z
           end in
  let sign := if z <? 0 then "-" else "" in
  let ds := decimal a in
  let n := Z.of_nat (String.length ds) in
  if n <=? 15 then sign ++ ds ++ ".0"
  else
    let k := n - 15 in
    let q0 := (a + 5 * 10 ^ (k - 1)) / 10 ^ k in
    let (q, x) := if q0 =? 10 ^ 15 then (10 ^ 14, n) else (q0, n - 1) in
    match reverse "" (strip_zeros (reverse "" (decimal q))) with
    | String c r =>
        sign ++ String c ("." ++ (match r with EmptyString => "0" | _ => r end))
             ++ "e+" ++ two_digits x
    | EmptyString => sign ++ ds
    end.

(** What a column of TEXT affinity keeps of a value: a number is
    turned into its text. *)
Definition text_affinity (x : SqlValue) : SqlValue :=
  match x with
  | SqlNumber z => SqlText (real_text z)
  | SqlText _ | SqlNull => x
  end.

(** Sequencing of calls that may throw. *)
Definition and_then {A B : Type} (o : Outcome A) (k : A -> Outcome B)
  : Outcome B :=
  match o with
  | Returned a => k a
  | Thrown e => Thrown e
  end.

Notation "x <- o ;; k" := (and_then o (fun x => k))
  (at level 61, o at next level, right associativity).

(** A value bound to the [?] of a TEXT column, as the column keeps it. *)
Definition store_value (v : JsValue) : Outcome SqlValue :=
  x <- bind_value v ;; Returned (text_affinity x).

(** The result of [stmt.run(...)]. *)
Record RunResult : Type := mkRun {
  changes : Z;
  lastInsertRowid : Z
}.

(** [ORDER BY created_at DESC]: the rows of the scan go through a
    sorter that compares the texts byte by byte and keeps rows with
    equal keys in the order of the scan. *)
Fixpoint insert_desc (r : Row) (l : list Row) : list Row :=
  match l with
  | [] => [r]
  | x :: l' =>
      if String.ltb (created_at r) (created_at x)
      then x :: insert_desc r l'
      else r :: l
  end.

Definition order_by_created_at_desc (l : list Row) : list Row :=
  fold_right insert_desc [] l.

Section Statements.

(** The environment of one request: [fault] is the exception the
    store raises on this request, if any (the file is locked, the
    disk fails, a constraint of the schema is violated); a store
    that throws leaves the table as it was. *)
Variable fault : option JsError.

Definition guarded {A : Type} (k : Outcome A) : Outcome A :=
  match fault with
  | Some e => Thrown e
  | None => k
  end.

(** [SELECT * FROM contacts ORDER BY created_at DESC], [.all()]. *)
Definition select_all (db : Db) : Outcome (list Row) :=
  guarded (Returned (order_by_created_at_desc (rows db))).

(** [SELECT * FROM contacts WHERE id = ?], [.get(id)]. *)
Definition select_by_id (db : Db) (key : string) : Outcome (option Row) :=
  guarded (Returned (find (matches (text_to_rowid key)) (rows db))).

(** [INSERT INTO contacts (name, phone, email, address) VALUES (?, ?, ?, ?)],
    [.run(name, phone, email, address)]; [now] is [CURRENT_TIMESTAMP].
    The arguments are bound, then the statement runs: the new row
    takes the rowid after [seq] and goes to the end of the table; its
    four columns have TEXT affinity. *)
Definition insert (now : string) (db : Db) (n p e a : JsValue)
  : Outcome (Db * RunResult) :=
  n' <- store_value n ;;
  p' <- store_value p ;;
  e' <- store_value e ;;
  a' <- store_value a ;;
  guarded
    (let k := seq db + 1 in
     Returned
       ({| rows := rows db ++ [mkRow k n' p' e' a' now]; seq := k |},
        {| changes := 1; lastInsertRowid := k |})).

Definition set_fields (n p e a : SqlValue) (r : Row) : Row :=
  mkRow (id r) n p e a (created_at r).

(** [UPDATE contacts SET name = ?, phone = ?, email = ?, address = ?
     WHERE id = ?], [.run(name, phone, email, address, id)]. *)
Definition update (db : Db) (n p e a : JsValue) (key : string)
  : Outcome (Db * RunResult) :=
  n' <- store_value n ;;
  p' <- store_value p ;;
  e' <- store_value e ;;
  a' <- store_value a ;;
  guarded
    (let hit := matches (text_to_rowid key) in
     Returned
       ({| rows :=
             map (fun r => if hit r then set_fields n' p' e' a' r else r)
                 (rows db);
           seq := seq db |},
        {| changes := Z.of_nat (List.length (filter hit (rows db)));
           lastInsertRowid := 0 |})).

(** [DELETE FROM contacts WHERE id = ?], [.run(id)]. *)
Definition delete (db : Db) (key : string) : Outcome (Db * RunResult) :=
  guarded
    (let hit := matches (text_to_rowid key) in
     Returned
       ({| rows := filter (fun r => negb (hit r)) (rows db);
           seq := seq db |},
        {| changes := Z.of_nat (List.length (filter hit (rows db)));
           lastInsertRowid := 0 |})).

End Statements.

(** The rows are in ascending rowid order, below [seq]. *)
Inductive ascending : Z -> list Row -> Prop :=
| asc_nil : forall lo, ascending lo []
| asc_cons : forall lo r l,
    lo < id r -> ascending (id r) l -> ascending lo (r :: l).

Fixpoint last_id (lo : Z) (l : list Row) : Z :=
  match l with
  | [] => lo
  | r :: l' => last_id (id r) l'
  end.

Definition well_formed (db : Db) : Prop :=
  ascending 0 (rows db) /\ last_id 0 (rows db) <= seq db.

End Sqlite.

(* ================================================================== *)
(** ** The application: constants, helpers and route handlers *)
(* ================================================================== *)

Module ERROR_CODES.
Definition SUCCESS : Z := 0.
Definition VALIDATION_ERROR : Z := 1.
Definition NOT_FOUND : Z := 2.
Definition DATABASE_ERROR : Z := 3.
End ERROR_CODES.

Module ERROR_MESSAGES.
Definition REQUIRED_FIELD_MISSING : string := "Required field is missing".
Definition EMAIL_ALREADY_EXISTS : string := "Email already exists in the system".
Definition CONTACT_NOT_FOUND : string := "Contact not found".
Definition INVALID_CONTACT_ID : string := "Invalid contact ID provided".
Definition CONTACT_CREATED : string := "Contact created successfully".
Definition CONTACT_UPDATED : string := "Contact updated successfully".
Definition CONTACT_DELETED : string := "Contact deleted successfully".
Definition DATA_RETRIEVAL_FAILED : string := "Failed to retrieve data".
Definition DATA_SAVE_FAILED : string := "Failed to save data".
Definition DATA_UPDATE_FAILED : string := "Failed to update data".
Definition DATA_DELETE_FAILED : string := "Failed to delete data".
End ERROR_MESSAGES.

Module App.
Import Js.
Import Sqlite (Db, Row, Outcome, Returned, Thrown, RunResult).

(** The [data] of an envelope: the rows of a list, the row of a get,
    or the object literal [{id, name, phone, email, address}] that
    create and update build from their input. *)
Inductive Payload : Type :=
| Contacts (l : list Row)
| Contact (r : Row)
| Fields (id name phone email address : JsValue).

(** The JSON object a handler sends; [data = None] is an object
    without a [data] key. *)
Record Envelope : Type := mkEnvelope {
  code : Z;
  msg : JsValue;
  data : option Payload
}.

(** What the client receives: the status line of the HTTP response
    and the envelope. *)
Record Response : Type := mkResponse {
  statusCode : Z;
  body : Envelope
}.

(** [res.json(obj)] on a response whose status nobody set: Express
    sends it with the default status 200. *)
Definition default_status : Z := 200.

Definition json (obj : Envelope) : Response :=
  {| statusCode := default_status; body := obj |}.

(** [sendResponse(res, code, msg, data = null)]; [None] stands for a
    [data] argument that is [null] or left out. *)
Definition sendResponse (code : Z) (msg : JsValue) (data : option Payload)
  : Response :=
  let response := {| code := code; msg := msg; data := None |} in
  let response :=
    match data with
    | Some d => {| code := code; msg := msg; data := Some d |}
    | None => response
    end in
  json response.

(** [validateContactInput(name, phone)]: a message or [null]. *)
Definition validateContactInput (name phone : JsValue) : JsValue :=
  if negb (truthy name) || negb (truthy phone)
  then JStr ERROR_MESSAGES.REQUIRED_FIELD_MISSING
  else JNull.

(** [req.body] of a create or update, destructured. *)
Record Body : Type := mkBody {
  name : JsValue;
  phone : JsValue;
  email : JsValue;
  address : JsValue
}.

(** The calls a handler makes to the logger: the method called, which
    is the level of the line, and the message (the attached fields are
    left out).  Which of the lines are written is up to the logger,
    see [Logger] below. *)
Inductive Level : Type := error | warn | info.

(** What serving one request does: the table afterwards, the
    response, the calls to the logger and the statements prepared. *)
Record Reply : Type := mkReply {
  db_after : Db;
  response : Response;
  log : list (Level * string);
  statements : list string
}.

Definition SELECT_ALL : string := "SELECT * FROM contacts ORDER BY created_at DESC".
Definition SELECT_ONE : string := "SELECT * FROM contacts WHERE id = ?".
Definition INSERT : string :=
  "INSERT INTO contacts (name, phone, email, address) VALUES (?, ?, ?, ?)".
Definition UPDATE : string :=
  "UPDATE contacts SET name = ?, phone = ?, email = ?, address = ? WHERE id = ?".
Definition DELETE : string := "DELETE FROM contacts WHERE id = ?".

(** The test of the two catch blocks that look for a constraint:
    [error.message && error.message.includes('UNIQUE constraint failed')]. *)
Definition is_unique_violation (e : JsError) : bool :=
  truthy (JStr (message e)) && includes (message e) "UNIQUE constraint failed".

Section Handlers.

(** The exception the store raises on this request, if any. *)
Variable fault : option JsError.

(** [GET /api/health]. *)
Definition get_health (db : Db) : Reply :=
  {| db_after := db;
     response := sendResponse ERROR_CODES.SUCCESS JNull None;
     log := [];
     statements := [] |}.

(** [GET /api/contacts]. *)
Definition get_contacts (db : Db) : Reply :=
  match Sqlite.select_all fault db with
  | Returned contacts =>
      {| db_after := db;
         response :=
           sendResponse ERROR_CODES.SUCCESS JNull (Some (Contacts contacts));
         log := [(info, "Contacts retrieved successfully")];
         statements := [SELECT_ALL] |}
  | Thrown _ =>
      {| db_after := db;
         response :=
           sendResponse ERROR_CODES.DATABASE_ERROR
             (JStr ERROR_MESSAGES.DATA_RETRIEVAL_FAILED) None;
         log := [(error, "Error fetching contacts")];
         statements := [SELECT_ALL] |}
  end.

(** [POST /api/contacts]; [now] is the clock of the store. *)
Definition post_contacts (now : string) (db : Db) (b : Body) : Reply :=
  let validationError := validateContactInput (name b) (phone b) in
  if truthy validationError then
    {| db_after := db;
       response :=
         sendResponse ERROR_CODES.VALIDATION_ERROR validationError None;
       log := [];
       statements := [] |}
  else
    match
      Sqlite.insert fault now db (name b) (phone b)
        (js_or (email b) JNull) (js_or (address b) JNull)
    with
    | Returned (db', result) =>
        {| db_after := db';
           response :=
             sendResponse ERROR_CODES.SUCCESS
               (JStr ERROR_MESSAGES.CONTACT_CREATED)
               (Some (Fields (JNum (Sqlite.lastInsertRowid result))
                        (name b) (phone b)
                        (js_or (email b) JNull) (js_or (address b) JNull)));
           log := [(info, "Contact created successfully")];
           statements := [INSERT] |}
    | Thrown e =>
        {| db_after := db;
           response :=
             if is_unique_violation e
             then sendResponse ERROR_CODES.VALIDATION_ERROR
                    (JStr ERROR_MESSAGES.EMAIL_ALREADY_EXISTS) None
             else sendResponse ERROR_CODES.DATABASE_ERROR
                    (JStr ERROR_MESSAGES.DATA_SAVE_FAILED) None;
           log := [(error, "Error creating contact")];
           statements := [INSERT] |}
    end.

(** The text [`${ERROR_MESSAGES.CONTACT_NOT_FOUND} (ID: ${id})`]. *)
Definition not_found_with_id (id : string) : string :=
  ERROR_MESSAGES.CONTACT_NOT_FOUND ++ " (ID: " ++ id ++ ")".

(** [GET /api/contacts/:id]; [id] is [req.params.id]. *)
Definition get_contact (db : Db) (id : string) : Reply :=
  match Sqlite.select_by_id fault db id with
  | Returned (Some contact) =>
      {| db_after := db;
         response :=
           sendResponse ERROR_CODES.SUCCESS JNull (Some (Contact contact));
         log := [(info, "Contact retrieved successfully")];
         statements := [SELECT_ONE] |}
  | Returned None =>
      {| db_after := db;
         response :=
           sendResponse ERROR_CODES.NOT_FOUND
             (JStr (not_found_with_id id)) None;
         log := [(warn, "Contact not found")];
         statements := [SELECT_ONE] |}
  | Thrown _ =>
      {| db_after := db;
         response :=
           if isNaN id
           then sendResponse ERROR_CODES.VALIDATION_ERROR
                  (JStr ERROR_MESSAGES.INVALID_CONTACT_ID) None
           else sendResponse ERROR_CODES.DATABASE_ERROR
                  (JStr ERROR_MESSAGES.DATA_RETRIEVAL_FAILED) None;
         log := [(error, "Error fetching contact")];
         statements := [SELECT_ONE] |}
  end.

(** [PUT /api/contacts/:id]. *)
Definition put_contact (db : Db) (id : string) (b : Body) : Reply :=
  let validationError := validateContactInput (name b) (phone b) in
  if truthy validationError then
    {| db_after := db;
       response :=
         sendResponse ERROR_CODES.VALIDATION_ERROR validationError None;
       log := [];
       statements := [] |}
  else
    match
      Sqlite.update fault db (name b) (phone b)
        (js_or (email b) JNull) (js_or (address b) JNull) id
    with
    | Returned (db', result) =>
        if Sqlite.changes result >? 0 then
          {| db_after := db';
             response :=
               sendResponse ERROR_CODES.SUCCESS
                 (JStr ERROR_MESSAGES.CONTACT_UPDATED)
                 (Some (Fields (JStr id) (name b) (phone b)
                          (js_or (email b) JNull)
                          (js_or (address b) JNull)));
             log := [(info, "Contact updated successfully")];
             statements := [UPDATE] |}
        else
          {| db_after := db';
             response :=
               sendResponse ERROR_CODES.NOT_FOUND
                 (JStr ERROR_MESSAGES.CONTACT_NOT_FOUND) None;
             log := [(warn, "Contact not found for update")];
             statements := [UPDATE] |}
    | Thrown e =>
        {| db_after := db;
           response :=
             if is_unique_violation e
             then sendResponse ERROR_CODES.VALIDATION_ERROR
                    (JStr ERROR_MESSAGES.EMAIL_ALREADY_EXISTS) None
             else sendResponse ERROR_CODES.DATABASE_ERROR
                    (JStr ERROR_MESSAGES.DATA_UPDATE_FAILED) None;
           log := [(error, "Error updating contact")];
           statements := [UPDATE] |}
    end.

(** [DELETE /api/contacts/:id]. *)
Definition delete_contact (db : Db) (id : string) : Reply :=
  match Sqlite.delete fault db id with
  | Returned (db', result) =>
      if Sqlite.changes result >? 0 then
        {| db_after := db';
           response :=
             sendResponse ERROR_CODES.SUCCESS
               (JStr ERROR_MESSAGES.CONTACT_DELETED) None;
           log := [(info, "Contact deleted successfully")];
           statements := [DELETE] |}
      else
        {| db_after := db';
           response :=
             sendResponse ERROR_CODES.NOT_FOUND
               (JStr (not_found_with_id id)) None;
           log := [(warn, "Contact not found for deletion")];
           statements := [DELETE] |}
  | Thrown _ =>
      {| db_after := db;
         response :=
           if isNaN id
           then sendResponse ERROR_CODES.VALIDATION_ERROR
                  (JStr ERROR_MESSAGES.INVALID_CONTACT_ID) None
           else sendResponse ERROR_CODES.DATABASE_ERROR
                  (JStr ERROR_MESSAGES.DATA_DELETE_FAILED) None;
         log := [(error, "Error deleting contact")];
         statements := [DELETE] |}
  end.

End Handlers.

(** The envelope's projections, read off a reply. *)
Definition reply_code (r : Reply) : Z := code (body (response r)).
Definition reply_msg (r : Reply) : JsValue := msg (body (response r)).
Definition reply_data (r : Reply) : option Payload := data (body (response r)).
Definition reply_status (r : Reply) : Z := statusCode (response r).

Definition has_data (r : Reply) : bool :=
  match reply_data r with Some _ => true | None => false end.

End App.

(* ================================================================== *)
(** ** The logger *)
(* ================================================================== *)

Module Logger.
Import App.

(** The two variables of [process.env] that the logger reads; [None]
    is a variable that is not set. *)
Record Env : Type := mkEnv {
  LOG_LEVEL : option string;
  NODE_ENV : option string
}.

(** The table [levels]: the rank of a level, by its name. *)
Definition levels (name : string) : option Z :=
  if (name =? "error")%string then Some 0
  else if (name =? "warn")%string then Some 1
  else if (name =? "info")%string then Some 2
  else if (name =? "http")%string then Some 3
  else if (name =? "debug")%string then Some 4
  else None.

(** The name under which a method of the logger records its line. *)
Definition level_name (l : Level) : string :=
  match l with
  | error => "error"
  | warn => "warn"
  | info => "info"
  end.

(** The level of the logger:
    [process.env.LOG_LEVEL ||
     (process.env.NODE_ENV === 'production' ? 'warn' : 'debug')]. *)
Definition level (env : Env) : string :=
  let by_mode :=
    match NODE_ENV env with
    | Some mode => if (mode =? "production")%string then "warn" else "debug"
    | None => "debug"
    end in
  match LOG_LEVEL env with
  | Some l => if (l =? "")%string then by_mode else l
  | None => by_mode
  end.

(** A transport of level [configured] writes a line of level [l] when
    the rank of [configured] is at least the rank of [l]; with a level
    that is not in the table it writes nothing. *)
Definition passes (configured : string) (l : Level) : bool :=
  match levels configured, levels (level_name l) with
  | Some c, Some x => x <=? c
  | _, _ => false
  end.

(** The console and [logs/all.log] take the level of the logger. *)
Definition written (env : Env) (calls : list (Level * string))
  : list (Level * string) :=
  filter (fun c => passes (level env) (fst c)) calls.

(** [logs/error.log] has the level [error] of its own. *)
Definition error_file (calls : list (Level * string))
  : list (Level * string) :=
  filter (fun c => passes "error" (fst c)) calls.

End Logger.

(* ================================================================== *)
(** ** Vocabulary of the properties *)
(* ================================================================== *)

Import Js Sqlite App.

(** A required field that is missing from the body or is the empty string. *)
Definition missing_or_empty (v : JsValue) : Prop :=
  v = JUndefined \/ v = JStr "".

Definition is_bool (v : JsValue) : bool :=
  match v with JBool _ => true | _ => false end.

(** A body the create and update statements accept: [name] and [phone]
    pass [validateContactInput] and no field holds a value that the
    store refuses to bind. *)
Definition accepted (b : Body) : bool :=
  truthy (name b) && truthy (phone b)
  && negb (is_bool (name b)) && negb (is_bool (phone b))
  && negb (is_bool (email b)) && negb (is_bool (address b)).

(** The [id] and [created_at] keys of a payload object, when it has them. *)
Definition payload_id (p : Payload) : option JsValue :=
  match p with
  | Fields i _ _ _ _ => Some i
  | Contact r => Some (JNum (id r))
  | Contacts _ => None
  end.

Definition payload_created_at (p : Payload) : option string :=
  match p with
  | Contact r => Some (created_at r)
  | Fields _ _ _ _ _ | Contacts _ => None
  end.



Definition reply_id (r : Reply) : option JsValue :=
  match reply_data r with
  | Some p => payload_id p
  | None => None
  end.

(** [typeof v]. *)
Inductive JsType : Type := t_undefined | t_object | t_boolean | t_number | t_string.

Definition typeof (v : JsValue) : JsType :=
  match v with
  | JUndefined => t_undefined
  | JNull => t_object
  | JBool _ => t_boolean
  | JNum _ => t_number
  | JStr _ => t_string
  end.

(** The row a create stores for a body whose fields bind to [n p e a]. *)
Definition created_row (db : Db) (n p e a : SqlValue) (now : string) : Row :=
  mkRow (seq db + 1) n p e a now.

(** The value a column keeps of a field bound to it; a boolean, which
    the store refuses, stands here for nothing. *)
Definition bound (v : JsValue) : SqlValue :=
  match store_value v with
  | Returned x => x
  | Thrown _ => SqlNull
  end.

(** The row a create stores for the body [b] under the rowid [k]. *)
Definition row_of_body (k : Z) (b : Body) (now : string) : Row :=
  mkRow k (bound (name b)) (bound (phone b))
    (bound (js_or (email b) JNull)) (bound (js_or (address b) JNull)) now.

(** Rows in the order [ORDER BY created_at DESC] asks for: no row comes
    before one with a greater [created_at]. *)
Definition not_before (x y : Row) : Prop :=
  String.ltb (created_at x) (created_at y) = false.

(** The rows created at the clock reading [t]. *)
Definition created_when (t : string) (r : Row) : bool :=
  String.eqb (created_at r) t.

(** Three creates in a row, each with its own clock reading. *)
Definition create3 (db : Db) (ta tb tc : string) (a b c : Body) : Db :=
  let d1 := db_after (post_contacts None ta db a) in
  let d2 := db_after (post_contacts None tb d1 b) in
  db_after (post_contacts None tc d2 c).

(** A request as the router hands it to a handler: the route
    ([app.get], [app.post], [app.put], [app.delete] with their paths)
    and what the handler reads from [req]. *)
Inductive Request : Type :=
| GetHealth
| GetContacts
| PostContacts (b : Body)
| GetContact (id : string)
| PutContact (id : string) (b : Body)
| DeleteContact (id : string).

(** The handler registered for the route; [fault] and [now] are what
    the store and its clock contribute to this request. *)
Definition serve (fault : option JsError) (now : string) (db : Db)
  (q : Request) : Reply :=
  match q with
  | GetHealth => get_health db
  | GetContacts => get_contacts fault db
  | PostContacts b => post_contacts fault now db b
  | GetContact id => get_contact fault db id
  | PutContact id b => put_contact fault db id b
  | DeleteContact id => delete_contact fault db id
  end.

(** Requests served one after the other on the same table, each with
    its fault and clock reading. *)
Fixpoint run (db : Db) (steps : list (option JsError * string * Request))
  : Db :=
  match steps with
  | [] => db
  | (fault, now, q) :: rest => run (db_after (serve fault now db q)) rest
  end.

(** Whether the identifier [id] names the row [r]. *)
Definition names (id : string) : Row -> bool :=
  matches (text_to_rowid id).


(** The routes whose handler runs a statement that writes. *)
Definition writes (q : Request) : bool :=
  match q with
  | PostContacts _ | PutContact _ _ | DeleteContact _ => true
  | GetHealth | GetContacts | GetContact _ => false
  end.

(** The levels of the calls a handler made to the logger. *)
Definition log_levels (r : Reply) : list Level := map fst (log r).

Definition john : Body := mkBody (JStr "John") (JStr "123") JUndefined JUndefined.
Definition jane : Body := mkBody (JStr "Jane") (JStr "123") JUndefined JUndefined.

(** The scenario of the description: create, get, update, delete, get. *)
Definition db1 : Db := db_after (post_contacts None "2024-01-01 12:00:00" empty_db john).
Definition db2 : Db := db_after (put_contact None db1 "1" jane).
Definition db3 : Db := db_after (delete_contact None db2 "1").

(* ================================================================== *)
(** ** The model at work *)
(* ================================================================== *)

Example isNaN_abc : isNaN "abc" = true. Proof. reflexivity. Qed.
Example isNaN_12 : isNaN " 12 " = false. Proof. reflexivity. Qed.
Example isNaN_1e : isNaN "1e" = true. Proof. reflexivity. Qed.
Example isNaN_hex : isNaN "0x1F" = false. Proof. reflexivity. Qed.
Example isNaN_dot : isNaN "." = true. Proof. reflexivity. Qed.
Example isNaN_frac : isNaN "-.5e+3" = false. Proof. reflexivity. Qed.
Example isNaN_inf : isNaN "-Infinity" = false. Proof. reflexivity. Qed.
Example isNaN_empty : isNaN "" = false. Proof. reflexivity. Qed.
Example isNaN_1a : isNaN "1a" = true. Proof. reflexivity. Qed.

Example rowid_1 : text_to_rowid "1" = Some 1. Proof. reflexivity. Qed.
Example rowid_1_0 : text_to_rowid " 1.0 " = Some 1. Proof. reflexivity. Qed.
Example rowid_1e2 : text_to_rowid "1e2" = Some 100. Proof. reflexivity. Qed.
Example rowid_50em1 : text_to_rowid "-50e-1" = Some (-5). Proof. reflexivity. Qed.
Example rowid_1_5 : text_to_rowid "1.5" = None. Proof. reflexivity. Qed.
Example rowid_abc : text_to_rowid "abc" = None. Proof. reflexivity. Qed.
Example rowid_hex : text_to_rowid "0x10" = None. Proof. reflexivity. Qed.
Example rowid_1a : text_to_rowid "1a" = None. Proof. reflexivity. Qed.
Example rowid_long_fraction :
  text_to_rowid "1.00000000000000000001" = Some 1.
Proof. reflexivity. Qed.
Example rowid_rounds_to_one :
  text_to_rowid "0.99999999999999999999" = Some 1.
Proof. reflexivity. Qed.
Example rowid_below_one : text_to_rowid "0.9999999999999999" = None.
Proof. reflexivity. Qed.
Example rowid_nul : text_to_rowid (String "1" (String "000" "abc")) = Some 1.
Proof. reflexivity. Qed.
Example isNaN_nul : isNaN (String "1" (String "000" "")) = true.
Proof. reflexivity. Qed.

(** A text that is not a number for [isNaN] can still name a row. *)
Example get_with_nul :
  reply_code (get_contact None db1 (String "1" (String "000" ""))) = 0.
Proof. reflexivity. Qed.

(** A number bound to a TEXT column is kept as its text. *)
Example numeric_phone_stored_as_text :
  rows (db_after (post_contacts None "2024-01-01 12:00:00" empty_db
                    (mkBody (JStr "Num") (JNum 123) JUndefined JUndefined)))
  = [mkRow 1 (SqlText "Num") (SqlText "123.0") SqlNull SqlNull
       "2024-01-01 12:00:00"].
Proof. reflexivity. Qed.
Example real_text_exponent : real_text 1000000000000000 = "1.0e+15".
Proof. reflexivity. Qed.

Example production_level :
  Logger.level (Logger.mkEnv None (Some "production")) = "warn"
  /\ Logger.level (Logger.mkEnv (Some "") (Some "production")) = "warn"
  /\ Logger.level (Logger.mkEnv (Some "info") (Some "production")) = "info"
  /\ Logger.level (Logger.mkEnv None None) = "debug".
Proof. repeat split. Qed.

Example scenario_create :
  reply_data (post_contacts None "2024-01-01 12:00:00" empty_db john)
  = Some (Fields (JNum 1) (JStr "John") (JStr "123") JNull JNull).
Proof. reflexivity. Qed.

Example scenario_get :
  response (get_contact None db1 "1")
  = mkResponse 200
      (mkEnvelope 0 JNull
         (Some (Contact (mkRow 1 (SqlText "John") (SqlText "123") SqlNull SqlNull
                           "2024-01-01 12:00:00")))).
Proof. reflexivity. Qed.

Example scenario_update :
  reply_data (put_contact None db1 "1" jane)
  = Some (Fields (JStr "1") (JStr "Jane") (JStr "123") JNull JNull).
Proof. reflexivity. Qed.

Example scenario_delete :
  reply_code (delete_contact None db2 "1") = 0 /\ rows db3 = [].
Proof. split; reflexivity. Qed.

Example scenario_get_again :
  body (response (get_contact None db3 "1"))
  = mkEnvelope 2 (JStr "Contact not found (ID: 1)") None.
Proof. reflexivity. Qed.

(* ================================================================== *)
(** ** Facts about the store *)
(* ================================================================== *)

Lemma db_eta (db : Db) : {| rows := rows db; seq := seq db |} = db.
Proof. destruct db; reflexivity. Qed.

Section NoMatch.

Variable key : option Z.
Variable l : list Row.
Hypothesis none : find (matches key) l = None.

Lemma no_hit_filter : filter (matches key) l = [].
Proof using none.
  induction l as [|r l' IH]; simpl in *; [reflexivity|].
  destruct (matches key r); [discriminate | auto].
Qed.

Lemma no_hit_keep : filter (fun r => negb (matches key r)) l = l.
Proof using none.
  induction l as [|r l' IH]; simpl in *; [reflexivity|].
  destruct (matches key r); [discriminate | simpl; f_equal; auto].
Qed.

Lemma no_hit_map (f : Row -> Row) :
  map (fun r => if matches key r then f r else r) l = l.
Proof using none.
  induction l as [|r l' IH]; simpl in *; [reflexivity|].
  destruct (matches key r); [discriminate | f_equal; auto].
Qed.

End NoMatch.

Lemma hit_filter (key : option Z) (l : list Row) (r : Row) :
  find (matches key) l = Some r ->
  (Z.of_nat (List.length (filter (matches key) l)) >? 0) = true.
Proof.
  induction l as [|x l' IH]; simpl; [discriminate|].
  destruct (matches key x); simpl List.length; intros H; [|auto].
  apply Z.gtb_lt. lia.
Qed.

Lemma filter_hit_positive (key : option Z) (l : list Row) :
  (Z.of_nat (List.length (filter (matches key) l)) >? 0) = true ->
  exists r, find (matches key) l = Some r.
Proof.
  induction l as [|x l' IH]; simpl; [discriminate|].
  destruct (matches key x); simpl; intros H; [eauto | auto].
Qed.

(** A body that is accepted binds, field by field. *)
Lemma store_value_not_bool (v : JsValue) :
  is_bool v = false -> exists x, store_value v = Returned x.
Proof.
  unfold store_value, and_then.
  destruct v; simpl; intros H; try discriminate; eauto.
Qed.

Lemma store_value_returned (v : JsValue) (x : SqlValue) :
  store_value v = Returned x -> is_bool v = false.
Proof.
  unfold store_value, and_then.
  destruct v; simpl; intros H; try discriminate; reflexivity.
Qed.

Lemma is_bool_or_null (v : JsValue) :
  is_bool v = false -> is_bool (js_or v JNull) = false.
Proof. unfold js_or; destruct (truthy v); auto. Qed.

Lemma insert_returned fault now db n p e a db' res :
  Sqlite.insert fault now db n p e a = Returned (db', res) ->
  exists n' p' e' a',
    store_value n = Returned n' /\ store_value p = Returned p' /\
    store_value e = Returned e' /\ store_value a = Returned a' /\
    fault = None /\
    db' = {| rows := rows db ++ [created_row db n' p' e' a' now]; seq := seq db + 1 |} /\
    res = {| changes := 1; lastInsertRowid := seq db + 1 |}.
Proof.
  unfold Sqlite.insert, and_then, guarded.
  destruct (store_value n) as [n'|]; [|discriminate].
  destruct (store_value p) as [p'|]; [|discriminate].
  destruct (store_value e) as [e'|]; [|discriminate].
  destruct (store_value a) as [a'|]; [|discriminate].
  destruct fault; [discriminate|].
  intros H; injection H as <- <-.
  exists n', p', e', a'; repeat split; reflexivity.
Qed.

Lemma update_returned fault db n p e a key db' res :
  Sqlite.update fault db n p e a key = Returned (db', res) ->
  exists n' p' e' a',
    store_value n = Returned n' /\ store_value p = Returned p' /\
    store_value e = Returned e' /\ store_value a = Returned a' /\
    fault = None /\
    db' = {| rows :=
               map (fun r => if matches (text_to_rowid key) r
                             then set_fields n' p' e' a' r else r) (rows db);
             seq := seq db |} /\
    changes res = Z.of_nat (List.length (filter (matches (text_to_rowid key)) (rows db))).
Proof.
  unfold Sqlite.update, and_then, guarded.
  destruct (store_value n) as [n'|]; [|discriminate].
  destruct (store_value p) as [p'|]; [|discriminate].
  destruct (store_value e) as [e'|]; [|discriminate].
  destruct (store_value a) as [a'|]; [|discriminate].
  destruct fault; [discriminate|].
  intros H; injection H as <- <-.
  exists n', p', e', a'; repeat split; reflexivity.
Qed.

Lemma update_binds db n p e a key n' p' e' a' :
  store_value n = Returned n' -> store_value p = Returned p' ->
  store_value e = Returned e' -> store_value a = Returned a' ->
  Sqlite.update None db n p e a key
  = Returned
      ({| rows :=
            map (fun r => if matches (text_to_rowid key) r
                          then set_fields n' p' e' a' r else r) (rows db);
          seq := seq db |},
       {| changes := Z.of_nat (List.length (filter (matches (text_to_rowid key)) (rows db)));
          lastInsertRowid := 0 |}).
Proof.
  intros Hn Hp He Ha. unfold Sqlite.update, and_then, guarded.
  rewrite Hn, Hp, He, Ha. reflexivity.
Qed.

(** An update keeps the rowids, so the rows it hits stay the same. *)
Lemma matches_set_fields key n p e a r :
  matches key (set_fields n p e a r) = matches key r.
Proof. destruct key; reflexivity. Qed.

Lemma update_twice key n p e a (l : list Row) :
  let f := fun r => if matches key r then set_fields n p e a r else r in
  map f (map f l) = map f l.
Proof.
  intros f. rewrite map_map. apply map_ext. intros r. unfold f.
  destruct (matches key r) eqn:H.
  - rewrite matches_set_fields, H. reflexivity.
  - rewrite H. reflexivity.
Qed.

Lemma update_same_hits key n p e a (l : list Row) :
  let f := fun r => if matches key r then set_fields n p e a r else r in
  List.length (filter (matches key) (map f l)) = List.length (filter (matches key) l).
Proof.
  intros f. induction l as [|r l' IH]; simpl; [reflexivity|].
  unfold f at 1. destruct (matches key r) eqn:H.
  - rewrite matches_set_fields, H. simpl. f_equal. exact IH.
  - rewrite H. exact IH.
Qed.

(* ================================================================== *)
(** ** Facts about the handlers *)
(* ================================================================== *)

Lemma validate_falsy (n p : JsValue) :
  truthy n = false \/ truthy p = false ->
  validateContactInput n p = JStr ERROR_MESSAGES.REQUIRED_FIELD_MISSING.
Proof.
  unfold validateContactInput. intros [H|H]; rewrite H; simpl;
    [reflexivity | rewrite orb_true_r; reflexivity].
Qed.

Lemma validate_truthy (n p : JsValue) :
  truthy n = true -> truthy p = true -> validateContactInput n p = JNull.
Proof. unfold validateContactInput. intros -> ->. reflexivity. Qed.

Lemma missing_or_empty_falsy (v : JsValue) : missing_or_empty v -> truthy v = false.
Proof. intros [->| ->]; reflexivity. Qed.

Lemma accepted_inv (b : Body) :
  accepted b = true ->
  truthy (name b) = true /\ truthy (phone b) = true /\
  is_bool (name b) = false /\ is_bool (phone b) = false /\
  is_bool (email b) = false /\ is_bool (address b) = false.
Proof.
  unfold accepted. rewrite !andb_true_iff, !negb_true_iff. tauto.
Qed.

(** A create that answers with code 0 has validated and inserted. *)
Lemma post_success fault now db b :
  reply_code (post_contacts fault now db b) = ERROR_CODES.SUCCESS ->
  exists n p e a,
    store_value (name b) = Returned n /\ store_value (phone b) = Returned p /\
    store_value (js_or (email b) JNull) = Returned e /\
    store_value (js_or (address b) JNull) = Returned a /\
    truthy (name b) = true /\ truthy (phone b) = true /\
    post_contacts fault now db b
    = {| db_after :=
           {| rows := rows db ++ [created_row db n p e a now]; seq := seq db + 1 |};
         response :=
           sendResponse ERROR_CODES.SUCCESS (JStr ERROR_MESSAGES.CONTACT_CREATED)
             (Some (Fields (JNum (seq db + 1)) (name b) (phone b)
                      (js_or (email b) JNull) (js_or (address b) JNull)));
         log := [(info, "Contact created successfully")];
         statements := [INSERT] |}.
Proof.
  unfold post_contacts, validateContactInput.
  destruct (truthy (name b)) eqn:Hn; [|discriminate].
  destruct (truthy (phone b)) eqn:Hp; [|discriminate].
  simpl.
  destruct (Sqlite.insert _ _ _ _ _ _ _) as [[db' res]|err] eqn:Hi.
  - intros _. apply insert_returned in Hi.
    destruct Hi as (n & p & e & a & H1 & H2 & H3 & H4 & _ & -> & ->).
    exists n, p, e, a. repeat split; assumption.
  - destruct (is_unique_violation err); discriminate.
Qed.

(** An update that answers with code 0 has validated and hit a row. *)
Lemma put_success fault db id b :
  reply_code (put_contact fault db id b) = ERROR_CODES.SUCCESS ->
  exists n p e a,
    store_value (name b) = Returned n /\ store_value (phone b) = Returned p /\
    store_value (js_or (email b) JNull) = Returned e /\
    store_value (js_or (address b) JNull) = Returned a /\
    fault = None /\
    put_contact fault db id b
    = {| db_after :=
           {| rows :=
                map (fun r => if matches (text_to_rowid id) r
                              then set_fields n p e a r else r) (rows db);
              seq := seq db |};
         response :=
           sendResponse ERROR_CODES.SUCCESS (JStr ERROR_MESSAGES.CONTACT_UPDATED)
             (Some (Fields (JStr id) (name b) (phone b)
                      (js_or (email b) JNull) (js_or (address b) JNull)));
         log := [(info, "Contact updated successfully")];
         statements := [UPDATE] |}.
Proof.
  unfold put_contact, validateContactInput.
  destruct (truthy (name b)) eqn:Hn; [|discriminate].
  destruct (truthy (phone b)) eqn:Hp; [|discriminate].
  simpl.
  destruct (Sqlite.update _ _ _ _ _ _ _) as [[db' res]|err] eqn:Hu.
  - apply update_returned in Hu.
    destruct Hu as (n & p & e & a & H1 & H2 & H3 & H4 & Hf & -> & Hc).
    destruct (changes res >? 0); [|discriminate].
    intros _. exists n, p, e, a. repeat split; assumption.
  - destruct (is_unique_violation err); discriminate.
Qed.

(* ================================================================== *)
(** ** Validation comes before storage *)
(* ================================================================== *)

(** C3. A create or an update whose [name] or [phone] is missing or is
    the empty string is answered with a validation failure (code 1);
    the handler prepares no statement and the table stays as it was,
    whatever the store would have done. *)
Theorem missing_required_field_rejected
  (fault : option JsError) (now : string) (db : Db) (id : string) (b : Body) :
  missing_or_empty (name b) \/ missing_or_empty (phone b) ->
  let c := post_contacts fault now db b in
  let u := put_contact fault db id b in
  (reply_code c = ERROR_CODES.VALIDATION_ERROR
   /\ statements c = [] /\ db_after c = db)
  /\ (reply_code u = ERROR_CODES.VALIDATION_ERROR
      /\ statements u = [] /\ db_after u = db).
Proof.
  intros H c u.
  assert (V : validateContactInput (name b) (phone b)
              = JStr ERROR_MESSAGES.REQUIRED_FIELD_MISSING).
  { apply validate_falsy.
    destruct H as [H|H]; [left|right]; apply missing_or_empty_falsy; exact H. }
  subst c u. unfold post_contacts, put_contact. rewrite V. simpl.
  repeat split; reflexivity.
Qed.

Lemma missing_required_field_rejected_witness :
  let b := mkBody (JStr "") (JStr "123") JUndefined JUndefined in
  let c := post_contacts None "2024-01-01 12:00:01" db1 b in
  let u := put_contact None db1 "1" b in
  (reply_code c = 1 /\ statements c = [] /\ db_after c = db1)
  /\ (reply_code u = 1 /\ statements u = [] /\ db_after u = db1).
Proof.
  apply (missing_required_field_rejected None "2024-01-01 12:00:01" db1 "1"
           (mkBody (JStr "") (JStr "123") JUndefined JUndefined)).
  left; right; reflexivity.
Defined.

(* ================================================================== *)
(** ** Identifiers that name no row *)
(* ================================================================== *)

(** C4, as stated, fails for an update: a body that does not pass
    validation is answered with code 1 before the identifier is looked
    at, also when the identifier names no row. *)
Lemma update_unknown_id_invalid_body :
  let b := mkBody (JStr "") (JStr "123") JUndefined JUndefined in
  isNaN "999" = false
  /\ select_by_id None db1 "999" = Returned None
  /\ reply_code (put_contact None db1 "999" b) = ERROR_CODES.VALIDATION_ERROR
  /\ reply_code (put_contact None db1 "999" b) <> ERROR_CODES.NOT_FOUND.
Proof. repeat split; try reflexivity. discriminate. Qed.

(** C4, amended. When the store answers and holds no row for the
    identifier, a get and a delete are answered with code 2 and a
    message that embeds the identifier, an update whose body is
    accepted is answered with code 2, and the table stays as it was. *)
Theorem unknown_id_not_found (db : Db) (id : string) (b : Body) :
  select_by_id None db id = Returned None ->
  accepted b = true ->
  let g := get_contact None db id in
  let u := put_contact None db id b in
  let d := delete_contact None db id in
  (reply_code g = ERROR_CODES.NOT_FOUND
   /\ reply_msg g = JStr ("Contact not found (ID: " ++ id ++ ")")
   /\ db_after g = db)
  /\ (reply_code u = ERROR_CODES.NOT_FOUND /\ db_after u = db)
  /\ (reply_code d = ERROR_CODES.NOT_FOUND
      /\ reply_msg d = JStr ("Contact not found (ID: " ++ id ++ ")")
      /\ db_after d = db).
Proof.
  intros Hsel Hb g u d.
  assert (Hnone : find (matches (text_to_rowid id)) (rows db) = None).
  { unfold select_by_id, guarded in Hsel. congruence. }
  apply accepted_inv in Hb.
  destruct Hb as (Hn & Hp & Bn & Bp & Be & Ba).
  split; [|split].
  - subst g. unfold get_contact. rewrite Hsel. repeat split; reflexivity.
  - subst u. unfold put_contact.
    rewrite (validate_truthy _ _ Hn Hp). simpl.
    destruct (store_value_not_bool _ Bn) as [n' En].
    destruct (store_value_not_bool _ Bp) as [p' Ep].
    destruct (store_value_not_bool _ (is_bool_or_null _ Be)) as [e' Ee].
    destruct (store_value_not_bool _ (is_bool_or_null _ Ba)) as [a' Ea].
    rewrite (update_binds db _ _ _ _ id _ _ _ _ En Ep Ee Ea). simpl.
    rewrite (no_hit_filter _ _ Hnone), (no_hit_map _ _ Hnone). simpl.
    split; [reflexivity | apply db_eta].
  - subst d. unfold delete_contact, Sqlite.delete, guarded. simpl.
    rewrite (no_hit_filter _ _ Hnone), (no_hit_keep _ _ Hnone). simpl.
    repeat split; try reflexivity. apply db_eta.
Qed.

Lemma unknown_id_not_found_witness :
  let g := get_contact None db1 "999" in
  let u := put_contact None db1 "999" jane in
  let d := delete_contact None db1 "999" in
  (reply_code g = 2 /\ reply_msg g = JStr "Contact not found (ID: 999)"
   /\ db_after g = db1)
  /\ (reply_code u = 2 /\ db_after u = db1)
  /\ (reply_code d = 2 /\ reply_msg d = JStr "Contact not found (ID: 999)"
      /\ db_after d = db1).
Proof.
  apply (unknown_id_not_found db1 "999" jane); reflexivity.
Defined.

(* ================================================================== *)
(** ** Exceptions of the store *)
(* ================================================================== *)

(** C5, as stated, fails: the catch blocks of get and delete test
    [isNaN(req.params.id)], so an exception of the store whose message
    names no uniqueness violation is answered with code 1, not code 3,
    when the identifier is not a number. *)
Lemma non_numeric_id_exception_is_validation :
  let e := {| message := "database is locked" |} in
  is_unique_violation e = false
  /\ select_by_id (Some e) db1 "abc" = Thrown e
  /\ reply_code (get_contact (Some e) db1 "abc") = ERROR_CODES.VALIDATION_ERROR
  /\ reply_code (get_contact (Some e) db1 "abc") <> ERROR_CODES.DATABASE_ERROR
  /\ Sqlite.delete (Some e) db1 "abc" = Thrown e
  /\ reply_code (delete_contact (Some e) db1 "abc") = ERROR_CODES.VALIDATION_ERROR.
Proof. repeat split; try reflexivity. discriminate. Qed.

(** C5, amended. Create and update translate an exception of the store
    to code 1 when its message contains [UNIQUE constraint failed] and
    to code 3 otherwise.  List translates every exception to code 3;
    get and delete translate every exception to code 1 when the
    identifier is not a number for [isNaN], and to code 3 otherwise. *)
Theorem storage_exceptions_translated
  (fault : option JsError) (e : JsError) (now : string) (db : Db)
  (id : string) (b : Body) :
  (select_all fault db = Thrown e ->
   reply_code (get_contacts fault db) = ERROR_CODES.DATABASE_ERROR)
  /\ (validateContactInput (name b) (phone b) = JNull ->
      Sqlite.insert fault now db (name b) (phone b)
        (js_or (email b) JNull) (js_or (address b) JNull) = Thrown e ->
      reply_code (post_contacts fault now db b)
      = if is_unique_violation e then ERROR_CODES.VALIDATION_ERROR
        else ERROR_CODES.DATABASE_ERROR)
  /\ (validateContactInput (name b) (phone b) = JNull ->
      Sqlite.update fault db (name b) (phone b)
        (js_or (email b) JNull) (js_or (address b) JNull) id = Thrown e ->
      reply_code (put_contact fault db id b)
      = if is_unique_violation e then ERROR_CODES.VALIDATION_ERROR
        else ERROR_CODES.DATABASE_ERROR)
  /\ (select_by_id fault db id = Thrown e ->
      reply_code (get_contact fault db id)
      = if isNaN id then ERROR_CODES.VALIDATION_ERROR
        else ERROR_CODES.DATABASE_ERROR)
  /\ (Sqlite.delete fault db id = Thrown e ->
      reply_code (delete_contact fault db id)
      = if isNaN id then ERROR_CODES.VALIDATION_ERROR
        else ERROR_CODES.DATABASE_ERROR).
Proof.
  split; [|split; [|split; [|split]]].
  - intros H. unfold get_contacts. rewrite H. reflexivity.
  - intros V H. unfold post_contacts. rewrite V, H. simpl.
    destruct (is_unique_violation e); reflexivity.
  - intros V H. unfold put_contact. rewrite V, H. simpl.
    destruct (is_unique_violation e); reflexivity.
  - intros H. unfold get_contact. rewrite H.
    destruct (isNaN id); reflexivity.
  - intros H. unfold delete_contact. rewrite H.
    destruct (isNaN id); reflexivity.
Qed.

Lemma storage_exceptions_translated_witness :
  let dup := {| message := "UNIQUE constraint failed: contacts.email" |} in
  let busy := {| message := "database is locked" |} in
  reply_code (get_contacts (Some busy) db1) = 3
  /\ reply_code (post_contacts (Some dup) "2024-01-01 12:00:01" db1 jane) = 1
  /\ reply_code (put_contact (Some busy) db1 "1" jane) = 3
  /\ reply_code (get_contact (Some busy) db1 "1") = 3
  /\ reply_code (delete_contact (Some busy) db1 "1") = 3.
Proof.
  intros dup busy.
  pose proof (storage_exceptions_translated (Some busy) busy
                "2024-01-01 12:00:01" db1 "1" jane) as (L & _ & U & G & D).
  pose proof (storage_exceptions_translated (Some dup) dup
                "2024-01-01 12:00:01" db1 "1" jane) as (_ & C & _).
  split; [|split; [|split; [|split]]].
  - apply L; reflexivity.
  - apply C; reflexivity.
  - apply U; reflexivity.
  - apply G; reflexivity.
  - apply D; reflexivity.
Defined.

(* ================================================================== *)
(** ** What a create returns *)
(* ================================================================== *)

(** C6, as stated, fails: the payload of a successful create is the
    object the handler builds from its input and the new rowid; it has
    no creation timestamp.  The response goes out with the status and
    the code of any other success, a delete for one; only the message
    tells a create. *)
Lemma created_payload_has_no_timestamp :
  let r := post_contacts None "2024-01-01 12:00:00" empty_db john in
  reply_code r = ERROR_CODES.SUCCESS
  /\ reply_data r = Some (Fields (JNum 1) (JStr "John") (JStr "123") JNull JNull)
  /\ (forall p, reply_data r = Some p -> payload_created_at p = None)
  /\ reply_status r = reply_status (delete_contact None db1 "1")
  /\ reply_code r = reply_code (delete_contact None db1 "1").
Proof.
  repeat split; try reflexivity.
  intros p H. injection H as <-. reflexivity.
Qed.

(** C6, amended. The payload of a successful create is the object
    [{id, name, phone, email, address}]: the rowid assigned by the
    store, the submitted [name] and [phone], and [email] and [address]
    as submitted or [null]; the envelope has code 0 and the message
    [Contact created successfully]; the row is stored with that rowid
    and the clock's reading. *)
Theorem created_payload_echoes_input
  (fault : option JsError) (now : string) (db : Db) (b : Body) :
  let r := post_contacts fault now db b in
  reply_code r = ERROR_CODES.SUCCESS ->
  reply_data r
  = Some (Fields (JNum (seq db + 1)) (name b) (phone b)
            (js_or (email b) JNull) (js_or (address b) JNull))
  /\ reply_msg r = JStr "Contact created successfully"
  /\ exists row,
       rows (db_after r) = (rows db ++ [row])%list
       /\ id row = seq db + 1 /\ created_at row = now.
Proof.
  intros r H. subst r.
  destruct (post_success _ _ _ _ H) as (n & p & e & a & _ & _ & _ & _ & _ & _ & E).
  rewrite E. repeat split.
  exists (created_row db n p e a now). repeat split.
Qed.

Lemma created_payload_echoes_input_witness :
  let r := post_contacts None "2024-01-01 12:00:00" empty_db john in
  reply_data r = Some (Fields (JNum 1) (JStr "John") (JStr "123") JNull JNull)
  /\ reply_msg r = JStr "Contact created successfully"
  /\ exists row,
       rows (db_after r) = [row] /\ id row = 1
       /\ created_at row = "2024-01-01 12:00:00".
Proof.
  apply (created_payload_echoes_input None "2024-01-01 12:00:00" empty_db john).
  reflexivity.
Defined.

(* ================================================================== *)
(** ** Update *)
(* ================================================================== *)

(** C7. Update is idempotent: for an identifier that names a row and a
    body that is accepted, the update succeeds, and applying it again
    leaves the table as the first application left it and returns the
    same response. *)
Theorem update_idempotent (db : Db) (id : string) (b : Body) (row : Row) :
  select_by_id None db id = Returned (Some row) ->
  accepted b = true ->
  let r1 := put_contact None db id b in
  let r2 := put_contact None (db_after r1) id b in
  reply_code r1 = ERROR_CODES.SUCCESS
  /\ response r2 = response r1
  /\ db_after r2 = db_after r1.
Proof.
  intros Hsel Hb.
  assert (Hfind : find (matches (text_to_rowid id)) (rows db) = Some row).
  { unfold select_by_id, guarded in Hsel. congruence. }
  apply accepted_inv in Hb.
  destruct Hb as (Hn & Hp & Bn & Bp & Be & Ba).
  destruct (store_value_not_bool _ Bn) as [n' En].
  destruct (store_value_not_bool _ Bp) as [p' Ep].
  destruct (store_value_not_bool _ (is_bool_or_null _ Be)) as [e' Ee].
  destruct (store_value_not_bool _ (is_bool_or_null _ Ba)) as [a' Ea].
  assert (Hhit := hit_filter _ _ _ Hfind).
  assert (E1 : put_contact None db id b
               = {| db_after :=
                      {| rows :=
                           map (fun r => if matches (text_to_rowid id) r
                                         then set_fields n' p' e' a' r else r)
                               (rows db);
                         seq := seq db |};
                    response :=
                      sendResponse ERROR_CODES.SUCCESS
                        (JStr ERROR_MESSAGES.CONTACT_UPDATED)
                        (Some (Fields (JStr id) (name b) (phone b)
                                 (js_or (email b) JNull)
                                 (js_or (address b) JNull)));
                    log := [(info, "Contact updated successfully")];
                    statements := [UPDATE] |}).
  { unfold put_contact. rewrite (validate_truthy _ _ Hn Hp). simpl.
    rewrite (update_binds db _ _ _ _ id _ _ _ _ En Ep Ee Ea). simpl.
    rewrite Hhit. reflexivity. }
  intros r1 r2. subst r2 r1. rewrite E1. simpl db_after.
  split; [reflexivity|].
  unfold put_contact. rewrite (validate_truthy _ _ Hn Hp). simpl.
  rewrite (update_binds _ _ _ _ _ id _ _ _ _ En Ep Ee Ea). simpl.
  rewrite update_same_hits, Hhit, update_twice. simpl.
  split; reflexivity.
Qed.

Lemma update_idempotent_witness :
  let r1 := put_contact None db1 "1" jane in
  let r2 := put_contact None (db_after r1) "1" jane in
  reply_code r1 = 0 /\ response r2 = response r1 /\ db_after r2 = db_after r1.
Proof.
  apply (update_idempotent db1 "1" jane
           (mkRow 1 (SqlText "John") (SqlText "123") SqlNull SqlNull
              "2024-01-01 12:00:00"));
    reflexivity.
Defined.

(** C10. The [id] of a successful update's payload is the path
    parameter as received, a string; the [id] of a successful create's
    payload is the rowid the store assigned, a number: the two payloads
    differ in the type of [id]. *)
Theorem update_id_is_text_create_id_is_number
  (fault fault' : option JsError) (now : string) (db db' : Db)
  (id : string) (b b' : Body) :
  reply_code (post_contacts fault now db b) = ERROR_CODES.SUCCESS ->
  reply_code (put_contact fault' db' id b') = ERROR_CODES.SUCCESS ->
  reply_id (post_contacts fault now db b) = Some (JNum (seq db + 1))
  /\ reply_id (put_contact fault' db' id b') = Some (JStr id)
  /\ typeof (JNum (seq db + 1)) = t_number
  /\ typeof (JStr id) = t_string.
Proof.
  intros Hc Hu.
  destruct (post_success _ _ _ _ Hc) as (n & p & e & a & _ & _ & _ & _ & _ & _ & Ec).
  destruct (put_success _ _ _ _ Hu) as (n' & p' & e' & a' & _ & _ & _ & _ & _ & Eu).
  rewrite Ec, Eu. repeat split.
Qed.

Lemma update_id_is_text_create_id_is_number_witness :
  reply_id (post_contacts None "2024-01-01 12:00:00" empty_db john) = Some (JNum 1)
  /\ reply_id (put_contact None db1 "1" jane) = Some (JStr "1")
  /\ typeof (JNum 1) = t_number
  /\ typeof (JStr "1") = t_string.
Proof.
  apply (update_id_is_text_create_id_is_number None None
           "2024-01-01 12:00:00" empty_db db1 "1" john jane);
    reflexivity.
Defined.

(* ================================================================== *)
(** ** Optional fields *)
(* ================================================================== *)






(* ================================================================== *)
(** ** The envelope *)
(* ================================================================== *)

(** C8. The envelope has a [data] key exactly when the operation
    yields a payload: never on health and delete, and on list, get,
    create and update exactly when they succeed, an empty list of
    contacts included.  [msg] is [null] on a successful list or get
    and on health, and a string on every other response, those of a
    successful create, update and delete among them. *)
Theorem data_and_msg_presence
  (fault : option JsError) (now : string) (db : Db) (id : string) (b : Body)
  (s : Z) :
  (has_data (get_health db) = false /\ reply_msg (get_health db) = JNull)
  /\ (let r := get_contacts fault db in
      has_data r = (reply_code r =? ERROR_CODES.SUCCESS)
      /\ is_null (reply_msg r) = (reply_code r =? ERROR_CODES.SUCCESS)
      /\ (typeof (reply_msg r) = t_string \/ reply_msg r = JNull))
  /\ reply_data (get_contacts None {| rows := []; seq := s |}) = Some (Contacts [])
  /\ (let r := get_contact fault db id in
      has_data r = (reply_code r =? ERROR_CODES.SUCCESS)
      /\ is_null (reply_msg r) = (reply_code r =? ERROR_CODES.SUCCESS)
      /\ (typeof (reply_msg r) = t_string \/ reply_msg r = JNull))
  /\ (let r := post_contacts fault now db b in
      has_data r = (reply_code r =? ERROR_CODES.SUCCESS)
      /\ typeof (reply_msg r) = t_string)
  /\ (let r := put_contact fault db id b in
      has_data r = (reply_code r =? ERROR_CODES.SUCCESS)
      /\ typeof (reply_msg r) = t_string)
  /\ (let r := delete_contact fault db id in
      has_data r = false /\ typeof (reply_msg r) = t_string).
Proof.
  split; [split; reflexivity|].
  split.
  { unfold get_contacts. destruct (select_all fault db); simpl; auto. }
  split; [reflexivity|].
  split.
  { unfold get_contact. destruct (select_by_id fault db id) as [[row|]|err]; simpl; auto.
    destruct (isNaN id); simpl; auto. }
  split.
  { unfold post_contacts, validateContactInput.
    destruct (truthy (name b)), (truthy (phone b)); simpl; auto;
      destruct (Sqlite.insert _ _ _ _ _ _ _) as [[d res]|err]; simpl; auto;
      destruct (is_unique_violation err); simpl; auto. }
  split.
  { unfold put_contact, validateContactInput.
    destruct (truthy (name b)), (truthy (phone b)); simpl; auto;
      destruct (Sqlite.update _ _ _ _ _ _ _) as [[d res]|err]; simpl; auto;
      [destruct (changes res >? 0) | destruct (is_unique_violation err)];
      simpl; auto. }
  unfold delete_contact.
  destruct (Sqlite.delete _ _ _) as [[d res]|err]; simpl.
  - destruct (changes res >? 0); simpl; auto.
  - destruct (isNaN id); simpl; auto.
Qed.

(* ================================================================== *)
(** ** The order of a list *)
(* ================================================================== *)

Section TextOrder.

Lemma ltb_lt (a b : string) : String.ltb a b = true <-> String.compare a b = Lt.
Proof. unfold String.ltb. destruct (String.compare a b); split; congruence. Qed.

Lemma ltb_asym (a b : string) : String.ltb a b = true -> String.ltb b a = false.
Proof.
  unfold String.ltb. rewrite (String.compare_antisym b a).
  destruct (String.compare a b); simpl; congruence.
Qed.

Lemma ltb_irrefl (a : string) : String.ltb a a = false.
Proof.
  destruct (String.ltb a a) eqn:H; [|reflexivity].
  rewrite (ltb_asym _ _ H) in H. discriminate.
Qed.

Lemma compare_lt_trans (a b c : string) :
  String.compare a b = Lt -> String.compare b c = Lt -> String.compare a c = Lt.
Proof.
  revert b c. induction a as [|x a IH]; intros [|y b] [|z c]; simpl;
    try discriminate; auto.
  unfold Ascii.compare.
  destruct (N.compare_spec (N_of_ascii x) (N_of_ascii y)) as [E1|L1|G1];
    try discriminate;
    destruct (N.compare_spec (N_of_ascii y) (N_of_ascii z)) as [E2|L2|G2];
    try discriminate; intros H1 H2.
  - rewrite E1, E2, N.compare_refl. eapply IH; eassumption.
  - rewrite E1. apply N.compare_lt_iff in L2. rewrite L2. reflexivity.
  - rewrite <- E2. apply N.compare_lt_iff in L1. rewrite L1. reflexivity.
  - assert (L : (N_of_ascii x < N_of_ascii z)%N) by lia.
    apply N.compare_lt_iff in L. rewrite L. reflexivity.
Qed.

Lemma ltb_trans (a b c : string) :
  String.ltb a b = true -> String.ltb b c = true -> String.ltb a c = true.
Proof. rewrite !ltb_lt. apply compare_lt_trans. Qed.

End TextOrder.

Section Sorter.

Lemma insert_desc_perm (r : Row) (l : list Row) :
  Permutation (insert_desc r l) (r :: l).
Proof.
  induction l as [|x l IH]; simpl; [apply Permutation_refl|].
  destruct (String.ltb (created_at r) (created_at x)).
  - eapply perm_trans; [apply perm_skip, IH | apply perm_swap].
  - apply Permutation_refl.
Qed.

Lemma order_perm (l : list Row) :
  Permutation (order_by_created_at_desc l) l.
Proof.
  induction l as [|r l IH]; simpl; [constructor|].
  eapply perm_trans; [apply insert_desc_perm | apply perm_skip, IH].
Qed.

Lemma insert_desc_hd (x r : Row) (l : list Row) :
  not_before x r -> HdRel not_before x l -> HdRel not_before x (insert_desc r l).
Proof.
  intros Hxr Hl. destruct l as [|y l]; simpl; [constructor; exact Hxr|].
  destruct (String.ltb (created_at r) (created_at y)).
  - constructor. inversion Hl; assumption.
  - constructor. exact Hxr.
Qed.

Lemma insert_desc_sorted (r : Row) (l : list Row) :
  Sorted not_before l -> Sorted not_before (insert_desc r l).
Proof.
  induction l as [|x l IH]; simpl; intros S.
  - repeat constructor.
  - destruct (String.ltb (created_at r) (created_at x)) eqn:L.
    + inversion S as [|? ? S' H]; subst. constructor; [apply IH, S'|].
      apply insert_desc_hd; [|exact H].
      unfold not_before. apply ltb_asym, L.
    + constructor; [exact S|]. constructor. exact L.
Qed.

Lemma order_sorted (l : list Row) :
  Sorted not_before (order_by_created_at_desc l).
Proof.
  induction l as [|r l IH]; simpl; [constructor|].
  apply insert_desc_sorted, IH.
Qed.

(** The sorter keeps a scan that is in order already as it is: rows
    with equal [created_at] come out in the order of the scan. *)
Lemma order_of_sorted (l : list Row) :
  Sorted not_before l -> order_by_created_at_desc l = l.
Proof.
  induction l as [|r l IH]; simpl; intros S; [reflexivity|].
  inversion S as [|? ? S' H]; subst. rewrite (IH S').
  destruct l as [|x l]; simpl; [reflexivity|].
  inversion H as [|? ? Hrx]; subst. unfold not_before in Hrx.
  rewrite Hrx. reflexivity.
Qed.

(** The sorter is stable: the rows of one clock reading come out in
    the order of the scan. *)
Lemma insert_desc_stable (t : string) (r : Row) (l : list Row) :
  filter (created_when t) (insert_desc r l) = filter (created_when t) (r :: l).
Proof.
  induction l as [|x l IH]; [reflexivity|].
  cbn [insert_desc].
  destruct (String.ltb (created_at r) (created_at x)) eqn:L; [|reflexivity].
  cbn [filter] in *. rewrite IH.
  destruct (created_when t x) eqn:Cx; destruct (created_when t r) eqn:Cr;
    try reflexivity.
  unfold created_when in Cx, Cr.
  apply String.eqb_eq in Cx. apply String.eqb_eq in Cr.
  rewrite Cx, Cr, ltb_irrefl in L. discriminate.
Qed.

Lemma order_stable (t : string) (l : list Row) :
  filter (created_when t) (order_by_created_at_desc l)
  = filter (created_when t) l.
Proof.
  induction l as [|r l IH]; [reflexivity|].
  change (order_by_created_at_desc (r :: l))
    with (insert_desc r (order_by_created_at_desc l)).
  rewrite insert_desc_stable. cbn [filter]. rewrite IH. reflexivity.
Qed.

Lemma order_app (l1 l2 : list Row) :
  order_by_created_at_desc (l1 ++ l2)
  = fold_right insert_desc (order_by_created_at_desc l2) l1.
Proof. unfold order_by_created_at_desc. apply fold_right_app. Qed.

(** A row older than the rows at the head of a list goes behind them. *)
Lemma insert_desc_behind (r : Row) (front l : list Row) :
  (forall x, In x front -> String.ltb (created_at r) (created_at x) = true) ->
  insert_desc r (front ++ l) = (front ++ insert_desc r l)%list.
Proof.
  induction front as [|y front IH]; simpl; intros H; [reflexivity|].
  rewrite (H y (or_introl eq_refl)). f_equal. apply IH.
  intros x Hx. apply H. right. exact Hx.
Qed.

Lemma fold_insert_behind (old front : list Row) :
  (forall r x, In r old -> In x front ->
               String.ltb (created_at r) (created_at x) = true) ->
  fold_right insert_desc front old
  = (front ++ order_by_created_at_desc old)%list.
Proof.
  induction old as [|r old IH]; simpl; intros H.
  - rewrite app_nil_r. reflexivity.
  - rewrite IH by (intros; apply H; auto).
    apply insert_desc_behind. intros x Hx. apply H; auto.
Qed.

End Sorter.

Lemma bound_of_bind (v : JsValue) :
  is_bool v = false -> store_value v = Returned (bound v).
Proof.
  unfold bound, store_value, and_then.
  destruct v; simpl; intros H; try discriminate; reflexivity.
Qed.

(** An accepted body is inserted when the store does not throw. *)
Lemma post_accepted (now : string) (db : Db) (b : Body) :
  accepted b = true ->
  db_after (post_contacts None now db b)
  = {| rows := rows db ++ [row_of_body (seq db + 1) b now]; seq := seq db + 1 |}.
Proof.
  intros Hb. apply accepted_inv in Hb.
  destruct Hb as (Hn & Hp & Bn & Bp & Be & Ba).
  unfold post_contacts. rewrite (validate_truthy _ _ Hn Hp). simpl.
  unfold Sqlite.insert, and_then, guarded.
  rewrite (bound_of_bind _ Bn), (bound_of_bind _ Bp),
    (bound_of_bind _ (is_bool_or_null _ Be)),
    (bound_of_bind _ (is_bool_or_null _ Ba)).
  reflexivity.
Qed.

Lemma create3_rows (db : Db) (ta tb tc : string) (a b c : Body) :
  accepted a = true -> accepted b = true -> accepted c = true ->
  create3 db ta tb tc a b c
  = {| rows := rows db ++ [row_of_body (seq db + 1) a ta;
                           row_of_body (seq db + 2) b tb;
                           row_of_body (seq db + 3) c tc];
       seq := seq db + 3 |}.
Proof.
  intros Ha Hb Hc. unfold create3.
  rewrite (post_accepted ta db a Ha).
  rewrite (post_accepted tb _ b Hb).
  rewrite (post_accepted tc _ c Hc).
  simpl. rewrite <- !app_assoc. simpl.
  replace (seq db + 1 + 1) with (seq db + 2) by lia.
  replace (seq db + 2 + 1) with (seq db + 3) by lia.
  reflexivity.
Qed.

(** C2, as stated, fails: [CURRENT_TIMESTAMP] has a resolution of one
    second, and three contacts created within the same second are
    listed in the order of their creation, the oldest first. *)
Lemma same_second_listed_oldest_first :
  let t := "2024-01-01 12:00:00" in
  let a := mkBody (JStr "A") (JStr "1") JUndefined JUndefined in
  let b := mkBody (JStr "B") (JStr "2") JUndefined JUndefined in
  let c := mkBody (JStr "C") (JStr "3") JUndefined JUndefined in
  reply_data (get_contacts None (create3 empty_db t t t a b c))
  = Some (Contacts [row_of_body 1 a t; row_of_body 2 b t; row_of_body 3 c t])
  /\ reply_data (get_contacts None (create3 empty_db t t t a b c))
     <> Some (Contacts [row_of_body 3 c t; row_of_body 2 b t; row_of_body 1 a t]).
Proof. split; [reflexivity | discriminate]. Qed.

(** C2, amended. List returns all stored contacts, none of them before
    a contact with a later [created_at], and those with the same
    [created_at] in the order of their creation.  After the creates A, B and C,
    when their timestamps increase strictly from one to the next and
    are later than those of the rows stored before, list returns C, B,
    A and then the rows stored before. *)
Theorem list_most_recent_first
  (db : Db) (ta tb tc : string) (a b c : Body) :
  accepted a = true -> accepted b = true -> accepted c = true ->
  let A := row_of_body (seq db + 1) a ta in
  let B := row_of_body (seq db + 2) b tb in
  let C := row_of_body (seq db + 3) c tc in
  exists l,
    reply_data (get_contacts None (create3 db ta tb tc a b c)) = Some (Contacts l)
    /\ Permutation l (rows db ++ [A; B; C])
    /\ Sorted not_before l
    /\ (forall t, filter (created_when t) l
                  = filter (created_when t) (rows db ++ [A; B; C]))
    /\ (String.ltb ta tb = true -> String.ltb tb tc = true ->
        (forall r, In r (rows db) -> String.ltb (created_at r) ta = true) ->
        l = C :: B :: A :: order_by_created_at_desc (rows db)).
Proof.
  intros Ha Hb Hc A B C.
  rewrite (create3_rows db ta tb tc a b c Ha Hb Hc). fold A B C.
  exists (order_by_created_at_desc (rows db ++ [A; B; C])).
  split; [reflexivity|]. split; [apply order_perm|]. split; [apply order_sorted|].
  split; [intros t; apply order_stable|].
  intros Lab Lbc Lold.
  assert (Lac : String.ltb ta tc = true) by (eapply ltb_trans; eassumption).
  rewrite order_app.
  assert (E : order_by_created_at_desc [A; B; C] = [C; B; A]).
  { unfold order_by_created_at_desc. simpl. rewrite Lbc. simpl.
    rewrite Lac. simpl. rewrite Lab. reflexivity. }
  rewrite E. apply (fold_insert_behind (rows db) [C; B; A]).
  intros r x Hr Hx. specialize (Lold r Hr).
  destruct Hx as [<-|[<-|[<-|[]]]]; simpl.
  - eapply ltb_trans; [exact Lold | exact Lac].
  - eapply ltb_trans; [exact Lold | exact Lab].
  - exact Lold.
Qed.

Lemma list_most_recent_first_witness :
  let a := mkBody (JStr "A") (JStr "1") JUndefined JUndefined in
  let b := mkBody (JStr "B") (JStr "2") JUndefined JUndefined in
  let c := mkBody (JStr "C") (JStr "3") JUndefined JUndefined in
  let ta := "2024-01-01 12:00:01" in
  let tb := "2024-01-01 12:00:02" in
  let tc := "2024-01-01 12:00:03" in
  reply_data (get_contacts None (create3 empty_db ta tb tc a b c))
  = Some (Contacts [row_of_body 3 c tc; row_of_body 2 b tb; row_of_body 1 a ta]).
Proof.
  intros a b c ta tb tc.
  destruct (list_most_recent_first empty_db ta tb tc a b c
              eq_refl eq_refl eq_refl) as (l & D & _ & _ & _ & O).
  rewrite D. rewrite O; [reflexivity | reflexivity | reflexivity |].
  intros r [].
Defined.

(* ================================================================== *)
(** ** Identifiers that are not numbers *)
(* ================================================================== *)

(** X17. The validation failure of a get is reached through the catch block
    only: the handler answers with code 1 exactly when the store throws
    and the identifier is not a number. *)
Lemma invalid_id_only_on_exception
  (fault : option JsError) (db : Db) (id : string) :
  reply_code (get_contact fault db id) = ERROR_CODES.VALIDATION_ERROR
  <-> (fault <> None /\ isNaN id = true).
Proof.
  unfold get_contact, select_by_id, guarded.
  destruct fault as [e|].
  - destruct (isNaN id); simpl; split.
    + intros _. split; [discriminate | reflexivity].
    + reflexivity.
    + discriminate.
    + intros [_ H]. discriminate.
  - destruct (find _ _); simpl; split; try discriminate;
      intros [H _]; contradiction.
Qed.

(** C1 does not hold of the handler.  The test [isNaN(req.params.id)]
    sits in the catch block only, and the store does not throw on a
    text that is not a number.  So a get with an identifier that is
    not numeric is never answered with the validation failure (code 1)
    when the store answers: it is answered with the not-found failure
    (code 2) and its message when the store finds no row for the text,
    and with the row otherwise. *)
Theorem non_numeric_id_not_rejected (db : Db) (id : string) :
  isNaN id = true ->
  let g := get_contact None db id in
  reply_code g <> ERROR_CODES.VALIDATION_ERROR
  /\ (select_by_id None db id = Returned None ->
      reply_code g = ERROR_CODES.NOT_FOUND
      /\ reply_msg g = JStr ("Contact not found (ID: " ++ id ++ ")"))
  /\ (forall row, select_by_id None db id = Returned (Some row) ->
      reply_code g = ERROR_CODES.SUCCESS
      /\ reply_data g = Some (Contact row)).
Proof.
  intros _ g. subst g. unfold get_contact.
  split; [|split].
  - destruct (select_by_id None db id) as [[row|]|e] eqn:S;
      [discriminate | discriminate |].
    unfold select_by_id, guarded in S. discriminate.
  - intros ->. split; reflexivity.
  - intros row ->. split; reflexivity.
Qed.

Lemma non_numeric_id_not_rejected_witness :
  let g := get_contact None db1 "abc" in
  isNaN "abc" = true
  /\ reply_code g <> 1
  /\ reply_code g = 2
  /\ reply_msg g = JStr "Contact not found (ID: abc)".
Proof.
  intros g.
  destruct (non_numeric_id_not_rejected db1 "abc" eq_refl) as (N & F & _).
  destruct (F eq_refl) as [C M].
  split; [reflexivity|]. split; [exact N|]. split; [exact C | exact M].
Defined.

(* ================================================================== *)
(** ** The table stays well formed *)
(* ================================================================== *)

Section Invariant.

Lemma ascending_weaken (lo lo' : Z) (l : list Row) :
  lo' <= lo -> ascending lo l -> ascending lo' l.
Proof.
  intros Hle H. destruct H as [|lo r l Hr Hl]; constructor; [lia | exact Hl].
Qed.

Lemma last_id_lower (lo : Z) (l : list Row) : ascending lo l -> lo <= last_id lo l.
Proof.
  intros H. induction H as [lo|lo r l Hr Hl IH]; simpl; lia.
Qed.

Lemma ascending_snoc (lo : Z) (l : list Row) (r : Row) :
  ascending lo l -> last_id lo l < Sqlite.id r -> ascending lo (l ++ [r]).
Proof.
  intros H. induction H as [lo|lo x l Hx Hl IH]; simpl; intros Hr.
  - constructor; [exact Hr | constructor].
  - constructor; [exact Hx | apply IH, Hr].
Qed.

Lemma last_id_snoc (lo : Z) (l : list Row) (r : Row) :
  last_id lo (l ++ [r]) = Sqlite.id r.
Proof. revert lo. induction l as [|x l IH]; simpl; intros lo; auto. Qed.

Lemma ascending_map (f : Row -> Row) (lo : Z) (l : list Row) :
  (forall r, Sqlite.id (f r) = Sqlite.id r) ->
  ascending lo l -> ascending lo (map f l).
Proof.
  intros Hf H. induction H as [lo|lo r l Hr Hl IH]; simpl; constructor.
  - rewrite Hf. exact Hr.
  - rewrite Hf. exact IH.
Qed.

Lemma last_id_map (f : Row -> Row) (lo : Z) (l : list Row) :
  (forall r, Sqlite.id (f r) = Sqlite.id r) ->
  last_id lo (map f l) = last_id lo l.
Proof.
  intros Hf. revert lo. induction l as [|r l IH]; simpl; intros lo; [reflexivity|].
  rewrite Hf. apply IH.
Qed.

Lemma ascending_filter (p : Row -> bool) (lo : Z) (l : list Row) :
  ascending lo l ->
  ascending lo (filter p l) /\ last_id lo (filter p l) <= last_id lo l.
Proof.
  intros H. induction H as [lo|lo r l Hr Hl [IH1 IH2]]; simpl.
  - split; [constructor | lia].
  - destruct (p r); simpl.
    + split; [constructor; assumption | exact IH2].
    + split.
      * apply (ascending_weaken (Sqlite.id r)); [lia | exact IH1].
      * assert (L : last_id lo (filter p l) <= last_id (Sqlite.id r) (filter p l)).
        { destruct (filter p l) as [|y l']; simpl; lia. }
        lia.
Qed.

Lemma id_kept (hit : Row -> bool) (n p e a : SqlValue) (r : Row) :
  Sqlite.id (if hit r then set_fields n p e a r else r) = Sqlite.id r.
Proof. destruct (hit r); reflexivity. Qed.

Lemma empty_db_well_formed : well_formed empty_db.
Proof. split; [constructor | simpl; lia]. Qed.

(** Whatever the request and the store's fault, a handler leaves the
    rows in ascending rowid order with [seq] above them: rowids are
    unique and grow with the insertions. *)
Lemma handlers_keep_well_formed
  (fault : option JsError) (now : string) (db : Db) (id : string) (b : Body) :
  well_formed db ->
  well_formed (db_after (get_health db))
  /\ well_formed (db_after (get_contacts fault db))
  /\ well_formed (db_after (get_contact fault db id))
  /\ well_formed (db_after (post_contacts fault now db b))
  /\ well_formed (db_after (put_contact fault db id b))
  /\ well_formed (db_after (delete_contact fault db id)).
Proof.
  intros W. destruct W as [Wa Ws].
  split; [split; assumption|].
  split; [unfold get_contacts; destruct (select_all fault db); split; assumption|].
  split.
  { unfold get_contact.
    destruct (select_by_id fault db id) as [[r|]|e]; split; assumption. }
  split.
  { unfold post_contacts. destruct (truthy (validateContactInput _ _));
      [split; assumption|].
    destruct (Sqlite.insert _ _ _ _ _ _ _) as [[d res]|e] eqn:E;
      [|split; assumption].
    apply insert_returned in E.
    destruct E as (n' & p' & e' & a' & _ & _ & _ & _ & _ & -> & _).
    split; simpl.
    - apply ascending_snoc; [exact Wa | simpl; lia].
    - rewrite last_id_snoc. simpl. lia. }
  split.
  { unfold put_contact. destruct (truthy (validateContactInput _ _));
      [split; assumption|].
    destruct (Sqlite.update _ _ _ _ _ _ _) as [[d res]|e] eqn:E;
      [|split; assumption].
    apply update_returned in E.
    destruct E as (n' & p' & e' & a' & _ & _ & _ & _ & _ & -> & _).
    assert (G : well_formed
                  {| rows := map (fun r => if matches (text_to_rowid id) r
                                           then set_fields n' p' e' a' r else r)
                                 (rows db);
                     seq := seq db |}).
    { split; simpl.
      - apply ascending_map; [intros r; apply id_kept | exact Wa].
      - rewrite last_id_map by (intros r; apply id_kept). exact Ws. }
    destruct (changes res >? 0); exact G. }
  unfold delete_contact, Sqlite.delete, guarded.
  destruct fault as [e|]; [split; assumption|]. simpl.
  destruct (ascending_filter
              (fun r => negb (matches (text_to_rowid id) r)) 0 (rows db) Wa)
    as [F1 F2].
  assert (G : well_formed
                {| rows := filter (fun r => negb (matches (text_to_rowid id) r))
                                  (rows db);
                   seq := seq db |}) by (split; simpl; [exact F1 | lia]).
  destruct (_ >? 0); exact G.
Qed.

End Invariant.

(* ================================================================== *)
(** ** Further facts about the store *)
(* ================================================================== *)

Section Rowids.

(** In a well-formed table every rowid lies above the bound and at or
    below the last one. *)
Lemma ascending_bounds (lo : Z) (l : list Row) :
  ascending lo l ->
  forall r, In r l -> lo < Sqlite.id r /\ Sqlite.id r <= last_id lo l.
Proof.
  intros H. induction H as [lo|lo x l Hx Hl IH]; simpl; intros r Hr; [contradiction|].
  pose proof (last_id_lower _ _ Hl) as B.
  destruct Hr as [<-|Hr]; [lia|].
  destruct (IH r Hr). lia.
Qed.


Lemma find_below (lo k : Z) (l : list Row) :
  ascending lo l -> k <= lo -> find (matches (Some k)) l = None.
Proof.
  intros A L.
  destruct (find (matches (Some k)) l) as [r|] eqn:F; [|reflexivity].
  apply find_some in F. destruct F as [Hin Hm]. simpl in Hm.
  apply Z.eqb_eq in Hm. destruct (ascending_bounds _ _ A r Hin). lia.
Qed.


(** At most one row of a well-formed table has a given rowid. *)
Lemma at_most_one_hit (key : option Z) (lo : Z) (l : list Row) :
  ascending lo l -> (List.length (filter (matches key) l) <= 1)%nat.
Proof.
  destruct key as [k|]; simpl.
  - intros H. induction H as [lo|lo x l Hx Hl IH]; simpl; [lia|].
    destruct (Sqlite.id x =? k) eqn:E; [|apply (Nat.le_trans _ _ _ IH); lia].
    apply Z.eqb_eq in E. simpl.
    assert (N : filter (matches (Some k)) l = []).
    { apply no_hit_filter. apply (find_below (Sqlite.id x)); [exact Hl | lia]. }
    simpl in N. rewrite N. simpl. lia.
  - intros _. induction l as [|x l IH]; simpl; lia.
Qed.

End Rowids.




Lemma find_filter_out (p : Row -> bool) (l : list Row) :
  find p (filter (fun r => negb (p r)) l) = None.
Proof.
  induction l as [|r l IH]; simpl; [reflexivity|].
  destruct (p r) eqn:H; simpl; [exact IH | rewrite H; exact IH].
Qed.

Lemma filter_split_length (p : Row -> bool) (l : list Row) :
  (List.length (filter p l) + List.length (filter (fun r => negb (p r)) l)
   = List.length l)%nat.
Proof.
  induction l as [|r l IH]; simpl; [reflexivity|].
  destruct (p r); simpl; lia.
Qed.


(** With no row for the identifier, a get and a delete answer
    not-found and the delete leaves the table as it was. *)
Lemma unknown_row_untouched (db : Db) (id : string) :
  select_by_id None db id = Returned None ->
  reply_code (get_contact None db id) = ERROR_CODES.NOT_FOUND
  /\ reply_code (delete_contact None db id) = ERROR_CODES.NOT_FOUND
  /\ db_after (delete_contact None db id) = db.
Proof.
  intros Hsel.
  assert (Hnone : find (matches (text_to_rowid id)) (rows db) = None).
  { unfold select_by_id, guarded in Hsel. congruence. }
  split.
  - unfold get_contact. rewrite Hsel. reflexivity.
  - unfold delete_contact, Sqlite.delete, guarded. simpl.
    rewrite (no_hit_filter _ _ Hnone), (no_hit_keep _ _ Hnone). simpl.
    split; [reflexivity | apply db_eta].
Qed.

(* ================================================================== *)
(** ** Round trips *)
(* ================================================================== *)





(** X3. A delete of a contact that is stored succeeds without a
    payload and removes that row and no other: the table is one row
    shorter and keeps the rows of the other identifiers; afterwards a
    get and a second delete of the identifier are answered with
    not-found, and the second delete changes nothing. *)
Theorem delete_removes_the_row (db : Db) (id : string) (row : Row) :
  well_formed db ->
  select_by_id None db id = Returned (Some row) ->
  let d := delete_contact None db id in
  let d2 := delete_contact None (db_after d) id in
  reply_code d = ERROR_CODES.SUCCESS
  /\ reply_data d = None
  /\ rows (db_after d) = filter (fun r => negb (names id r)) (rows db)
  /\ (List.length (rows (db_after d)) + 1 = List.length (rows db))%nat
  /\ reply_code (get_contact None (db_after d) id) = ERROR_CODES.NOT_FOUND
  /\ reply_code d2 = ERROR_CODES.NOT_FOUND
  /\ db_after d2 = db_after d.
Proof.
  intros [Wa Ws] Hsel d d2.
  assert (F : find (names id) (rows db) = Some row).
  { unfold select_by_id, guarded in Hsel. injection Hsel as Hsel. exact Hsel. }
  assert (Hhit := hit_filter _ _ _ F).
  assert (D : delete_contact None db id
              = {| db_after :=
                     {| rows := filter (fun r => negb (names id r)) (rows db);
                        seq := seq db |};
                   response :=
                     sendResponse ERROR_CODES.SUCCESS
                       (JStr ERROR_MESSAGES.CONTACT_DELETED) None;
                   log := [(info, "Contact deleted successfully")];
                   statements := [DELETE] |}).
  { unfold delete_contact, Sqlite.delete, guarded. cbn [changes].
    rewrite Hhit. reflexivity. }
  assert (N : select_by_id None (db_after d) id = Returned None).
  { subst d. rewrite D. unfold select_by_id, guarded. cbn [db_after rows].
    f_equal. apply (find_filter_out (names id)). }
  assert (One : List.length (filter (names id) (rows db)) = 1%nat).
  { pose proof (at_most_one_hit (text_to_rowid id) 0 (rows db) Wa) as U.
    apply Z.gtb_lt in Hhit. unfold names. lia. }
  destruct (unknown_row_untouched (db_after d) id N) as (G & D2c & D2d).
  subst d2 d. rewrite D in *. cbn [db_after rows] in *.
  split; [reflexivity|]. split; [reflexivity|]. split; [reflexivity|].
  split.
  { pose proof (filter_split_length (names id) (rows db)). lia. }
  split; [exact G|]. split; [exact D2c | exact D2d].
Qed.

Lemma delete_removes_the_row_witness :
  let d := delete_contact None db2 "1" in
  let d2 := delete_contact None (db_after d) "1" in
  reply_code d = 0
  /\ reply_data d = None
  /\ rows (db_after d) = filter (fun r => negb (names "1" r)) (rows db2)
  /\ (List.length (rows (db_after d)) + 1 = List.length (rows db2))%nat
  /\ reply_code (get_contact None (db_after d) "1") = 2
  /\ reply_code d2 = 2
  /\ db_after d2 = db_after d.
Proof.
  apply (delete_removes_the_row db2 "1"
           (mkRow 1 (SqlText "Jane") (SqlText "123") SqlNull SqlNull
              "2024-01-01 12:00:00")).
  - split; [repeat constructor | simpl; lia].
  - reflexivity.
Defined.

(* ================================================================== *)
(** ** What a request leaves alone *)
(* ================================================================== *)

Lemma no_hits_no_row (key : option Z) (l : list Row) :
  (Z.of_nat (List.length (filter (matches key) l)) >? 0) = false ->
  find (matches key) l = None.
Proof.
  intros H. destruct (find (matches key) l) as [r|] eqn:F; [|reflexivity].
  rewrite (hit_filter _ _ _ F) in H. discriminate.
Qed.

Lemma map_keeps_projection {A : Type} (proj : Row -> A) (f : Row -> Row)
  (l : list Row) :
  (forall r, proj (f r) = proj r) -> map proj (map f l) = map proj l.
Proof.
  intros H. rewrite map_map. apply map_ext. exact H.
Qed.

Lemma update_keeps_others (key : option Z) (n p e a : SqlValue) (l : list Row) :
  filter (fun r => negb (matches key r))
    (map (fun r => if matches key r then set_fields n p e a r else r) l)
  = filter (fun r => negb (matches key r)) l.
Proof.
  induction l as [|r l IH]; simpl; [reflexivity|].
  destruct (matches key r) eqn:H.
  - rewrite matches_set_fields, H. simpl. exact IH.
  - rewrite H. simpl. f_equal. exact IH.
Qed.

(** X4. An update, whatever its outcome, keeps the rowid and the
    [created_at] of every row, the number and the order of the rows
    and the counter of rowids, and leaves the rows of the other
    identifiers as they are. *)
Theorem update_keeps_identity
  (fault : option JsError) (db : Db) (id : string) (b : Body) :
  let u := put_contact fault db id b in
  map Sqlite.id (rows (db_after u)) = map Sqlite.id (rows db)
  /\ map created_at (rows (db_after u)) = map created_at (rows db)
  /\ seq (db_after u) = seq db
  /\ filter (fun r => negb (names id r)) (rows (db_after u))
     = filter (fun r => negb (names id r)) (rows db).
Proof.
  intros u. subst u. unfold put_contact.
  destruct (truthy (validateContactInput (name b) (phone b)));
    [repeat split|].
  destruct (Sqlite.update _ _ _ _ _ _ _) as [[d res]|e] eqn:E;
    [|repeat split].
  apply update_returned in E.
  destruct E as (n' & p' & e' & a' & _ & _ & _ & _ & _ & -> & _).
  assert (G : forall rep : Reply,
            db_after rep
            = {| rows := map (fun r => if matches (text_to_rowid id) r
                                       then set_fields n' p' e' a' r else r)
                             (rows db);
                 seq := seq db |} ->
            map Sqlite.id (rows (db_after rep)) = map Sqlite.id (rows db)
            /\ map created_at (rows (db_after rep)) = map created_at (rows db)
            /\ seq (db_after rep) = seq db
            /\ filter (fun r => negb (names id r)) (rows (db_after rep))
               = filter (fun r => negb (names id r)) (rows db)).
  { intros rep ->. cbn [rows seq].
    split; [apply map_keeps_projection; intros r; apply id_kept|].
    split; [apply map_keeps_projection; intros r;
            destruct (matches (text_to_rowid id) r); reflexivity|].
    split; [reflexivity|]. apply update_keeps_others. }
  destruct (changes res >? 0); apply G; reflexivity.
Qed.

(** X5. A request that only reads, and a request that is answered
    with a failure, leave the table exactly as it was: a create, an
    update or a delete changes it only when it answers with code 0. *)
Theorem failure_leaves_table
  (fault : option JsError) (now : string) (db : Db) (q : Request) :
  writes q = false \/ reply_code (serve fault now db q) <> ERROR_CODES.SUCCESS ->
  db_after (serve fault now db q) = db.
Proof.
  destruct q as [| |b|id|id b|id]; simpl.
  - reflexivity.
  - intros _. unfold get_contacts. destruct (select_all fault db); reflexivity.
  - intros [H|H]; [discriminate|]. revert H. unfold post_contacts.
    destruct (truthy (validateContactInput _ _)); [reflexivity|].
    destruct (Sqlite.insert _ _ _ _ _ _ _) as [[d res]|e]; [|reflexivity].
    intros H. exfalso. apply H. reflexivity.
  - intros _. unfold get_contact.
    destruct (select_by_id fault db id) as [[r|]|e]; reflexivity.
  - intros [H|H]; [discriminate|]. revert H. unfold put_contact.
    destruct (truthy (validateContactInput _ _)); [reflexivity|].
    destruct (Sqlite.update _ _ _ _ _ _ _) as [[d res]|e] eqn:E; [|reflexivity].
    apply update_returned in E.
    destruct E as (n' & p' & e' & a' & _ & _ & _ & _ & _ & -> & Hc).
    destruct (changes res >? 0) eqn:C.
    + intros H. exfalso. apply H. reflexivity.
    + intros _. cbn [db_after]. rewrite Hc in C.
      rewrite (no_hit_map _ _ (no_hits_no_row _ _ C)). apply db_eta.
  - intros [H|H]; [discriminate|]. revert H.
    unfold delete_contact, Sqlite.delete, guarded.
    destruct fault as [e|]; [reflexivity|]. cbn [changes].
    destruct (_ >? 0) eqn:C.
    + intros H. exfalso. apply H. reflexivity.
    + intros _. cbn [db_after].
      rewrite (no_hit_keep _ _ (no_hits_no_row _ _ C)). apply db_eta.
Qed.

Lemma failure_leaves_table_witness :
  db_after (serve (Some {| message := "database is locked" |})
              "2024-01-01 12:00:05" db1 (DeleteContact "1")) = db1
  /\ db_after (serve None "2024-01-01 12:00:05" db1 (PutContact "7" jane)) = db1
  /\ db_after (serve None "2024-01-01 12:00:05" db1 GetContacts) = db1.
Proof.
  split; [|split].
  - apply (failure_leaves_table (Some {| message := "database is locked" |})
             "2024-01-01 12:00:05" db1 (DeleteContact "1")).
    right. discriminate.
  - apply (failure_leaves_table None "2024-01-01 12:00:05" db1
             (PutContact "7" jane)).
    right. discriminate.
  - apply (failure_leaves_table None "2024-01-01 12:00:05" db1 GetContacts).
    left. reflexivity.
Defined.

(* ================================================================== *)
(** ** Rowids over a sequence of requests *)
(* ================================================================== *)

Lemma serve_keeps_well_formed
  (fault : option JsError) (now : string) (db : Db) (q : Request) :
  well_formed db -> well_formed (db_after (serve fault now db q)).
Proof.
  intros W.
  destruct q as [| |b|id|id b|id]; simpl;
    first [ apply (handlers_keep_well_formed fault now db "" john W)
          | apply (handlers_keep_well_formed fault now db "" b W)
          | apply (handlers_keep_well_formed fault now db id john W)
          | apply (handlers_keep_well_formed fault now db id b W) ].
Qed.

Lemma run_keeps_well_formed (steps : list (option JsError * string * Request))
  (db : Db) :
  well_formed db -> well_formed (run db steps).
Proof.
  revert db. induction steps as [|[[fault now] q] rest IH]; simpl; intros db W.
  - exact W.
  - apply IH, serve_keeps_well_formed, W.
Qed.

Lemma ascending_nodup (lo : Z) (l : list Row) :
  ascending lo l -> NoDup (map Sqlite.id l).
Proof.
  intros H. induction H as [lo|lo r l Hr Hl IH]; simpl; constructor; [|exact IH].
  rewrite in_map_iff. intros (x & Ex & Hx).
  destruct (ascending_bounds _ _ Hl x Hx). lia.
Qed.

(** X6. Whatever requests are served from the empty table on, with
    whatever faults of the store, the table holds no two rows with the
    same rowid, and every rowid is positive and at most the counter
    [seq]. *)
Theorem reachable_rowids_unique
  (steps : list (option JsError * string * Request)) :
  let db := run empty_db steps in
  NoDup (map Sqlite.id (rows db))
  /\ (forall r, In r (rows db) -> 0 < Sqlite.id r <= seq db).
Proof.
  intros db.
  destruct (run_keeps_well_formed steps empty_db empty_db_well_formed)
    as [Wa Ws].
  fold db in Wa, Ws. split.
  - apply (ascending_nodup 0), Wa.
  - intros r Hr. destruct (ascending_bounds _ _ Wa r Hr). lia.
Qed.

Lemma update_keeps_seq
  (fault : option JsError) (db : Db) (id : string) (b : Body) :
  seq (db_after (put_contact fault db id b)) = seq db.
Proof.
  unfold put_contact.
  destruct (truthy (validateContactInput _ _)); [reflexivity|].
  destruct (Sqlite.update _ _ _ _ _ _ _) as [[d res]|e] eqn:E; [|reflexivity].
  apply update_returned in E.
  destruct E as (n' & p' & e' & a' & _ & _ & _ & _ & _ & -> & _).
  destruct (changes res >? 0); reflexivity.
Qed.

Lemma serve_seq_grows
  (fault : option JsError) (now : string) (db : Db) (q : Request) :
  seq db <= seq (db_after (serve fault now db q)).
Proof.
  destruct q as [| |b|id|id b|id]; simpl.
  - lia.
  - unfold get_contacts. destruct (select_all fault db); simpl; lia.
  - unfold post_contacts. destruct (truthy (validateContactInput _ _));
      [simpl; lia|].
    destruct (Sqlite.insert _ _ _ _ _ _ _) as [[d res]|e] eqn:E; [|simpl; lia].
    apply insert_returned in E.
    destruct E as (n' & p' & e' & a' & _ & _ & _ & _ & _ & -> & _). simpl. lia.
  - unfold get_contact.
    destruct (select_by_id fault db id) as [[r|]|e]; simpl; lia.
  - pose proof (update_keeps_seq fault db id b). lia.
  - unfold delete_contact, Sqlite.delete, guarded.
    destruct fault as [e|]; [simpl; lia|]. cbn [changes].
    destruct (_ >? 0); simpl; lia.
Qed.

Lemma run_seq_grows (steps : list (option JsError * string * Request))
  (db : Db) :
  seq db <= seq (run db steps).
Proof.
  revert db. induction steps as [|[[fault now] q] rest IH]; simpl; intros db.
  - lia.
  - pose proof (serve_seq_grows fault now db q).
    pose proof (IH (db_after (serve fault now db q))). lia.
Qed.

(** X7. A rowid is never handed out twice: the identifier a create
    returns, after any sequence of requests on a table, deletes
    included, is greater than the counter of that table and so than
    the rowid of every row the table held. *)
Theorem rowid_never_reused
  (db : Db) (steps : list (option JsError * string * Request))
  (fault : option JsError) (now : string) (b : Body) :
  well_formed db ->
  reply_code (post_contacts fault now (run db steps) b) = ERROR_CODES.SUCCESS ->
  exists k,
    reply_id (post_contacts fault now (run db steps) b) = Some (JNum k)
    /\ seq db < k
    /\ (forall r, In r (rows db) -> Sqlite.id r < k).
Proof.
  intros [Wa Ws] H.
  destruct (post_success _ _ _ _ H) as (n & p & e & a & _ & _ & _ & _ & _ & _ & E).
  exists (seq (run db steps) + 1). rewrite E.
  pose proof (run_seq_grows steps db) as G.
  split; [reflexivity|]. split; [lia|].
  intros r Hr. destruct (ascending_bounds _ _ Wa r Hr). lia.
Qed.

Lemma rowid_never_reused_witness :
  exists k,
    reply_id (post_contacts None "2024-01-01 12:00:09"
                (run db1 [(None, "2024-01-01 12:00:05", DeleteContact "1")])
                jane) = Some (JNum k)
    /\ seq db1 < k
    /\ (forall r, In r (rows db1) -> Sqlite.id r < k).
Proof.
  apply (rowid_never_reused db1
           [(None, "2024-01-01 12:00:05", DeleteContact "1")]
           None "2024-01-01 12:00:09" jane).
  - split; [repeat constructor | simpl; lia].
  - reflexivity.
Defined.

(* ================================================================== *)
(** ** Codes, log lines and statements *)
(* ================================================================== *)

(** The calls to the logger follow from how a handler answers: a
    database failure (code 3) comes with one call of [logger.error], a
    not-found failure (code 2) with one call of [logger.warn], a
    success of a contacts route with one call of [logger.info]; the
    health check and a request refused by [validateContactInput],
    which prepare no statement, do not call the logger. *)
Lemma logger_calls_follow_code
  (fault : option JsError) (now : string) (db : Db) (q : Request) :
  let r := serve fault now db q in
  (reply_code r = ERROR_CODES.DATABASE_ERROR -> log_levels r = [error])
  /\ (reply_code r = ERROR_CODES.NOT_FOUND -> log_levels r = [warn])
  /\ (reply_code r = ERROR_CODES.SUCCESS -> q <> GetHealth ->
      log_levels r = [info])
  /\ (statements r = [] <-> log_levels r = []).
Proof.
  destruct q as [| |b|id|id b|id]; cbn [serve].
  - repeat split; try discriminate. intros _ H. contradiction.
  - unfold get_contacts. destruct (select_all fault db);
      repeat split; try discriminate.
  - unfold post_contacts, validateContactInput.
    destruct (negb (truthy (name b)) || negb (truthy (phone b)));
      cbn [truthy String.eqb negb];
      [repeat split; try discriminate|].
    destruct (Sqlite.insert _ _ _ _ _ _ _) as [[d res]|e];
      [|destruct (is_unique_violation e)]; repeat split; try discriminate.
  - unfold get_contact.
    destruct (select_by_id fault db id) as [[row|]|e];
      [| |destruct (isNaN id)]; repeat split; try discriminate.
  - unfold put_contact, validateContactInput.
    destruct (negb (truthy (name b)) || negb (truthy (phone b)));
      cbn [truthy String.eqb negb];
      [repeat split; try discriminate|].
    destruct (Sqlite.update _ _ _ _ _ _ _) as [[d res]|e];
      [destruct (changes res >? 0)|destruct (is_unique_violation e)];
      repeat split; try discriminate.
  - unfold delete_contact.
    destruct (Sqlite.delete _ _ _) as [[d res]|e];
      [destruct (changes res >? 0)|destruct (isNaN id)];
      repeat split; try discriminate.
Qed.

Lemma written_levels (env : Logger.Env) (calls : list (Level * string)) :
  map fst (Logger.written env calls)
  = filter (Logger.passes (Logger.level env)) (map fst calls).
Proof.
  unfold Logger.written. induction calls as [|c l IH]; simpl; [reflexivity|].
  destruct (Logger.passes (Logger.level env) (fst c)); simpl; rewrite IH;
    reflexivity.
Qed.

Lemma error_file_levels (calls : list (Level * string)) :
  map fst (Logger.error_file calls)
  = filter (Logger.passes "error") (map fst calls).
Proof.
  unfold Logger.error_file. induction calls as [|c l IH]; simpl; [reflexivity|].
  destruct (Logger.passes "error" (fst c)); simpl; rewrite IH; reflexivity.
Qed.

Lemma error_always_passes (configured : string) (c : Z) :
  Logger.levels configured = Some c -> Logger.passes configured error = true.
Proof.
  unfold Logger.passes. intros H. rewrite H. simpl.
  unfold Logger.levels in H.
  repeat match type of H with
         | (if ?b then _ else _) = _ => destruct b
         end;
    try discriminate; injection H as <-; reflexivity.
Qed.

(** X8. What the logger writes follows from how a handler answers and
    from the level of the logger.  With a level of the table, a
    database failure (code 3) writes one line at level [error], on the
    console and in the error file; a not-found failure (code 2) writes
    one line at level [warn] when the level lets [warn] pass and
    nothing otherwise; a success of a contacts route writes one line
    at level [info] when the level lets [info] pass and nothing
    otherwise, so nothing under the level of production.  A reply
    that prepared no statement writes nothing, and only a reply whose
    handler caught an exception writes to the error file. *)
Theorem written_lines_follow_code
  (env : Logger.Env) (fault : option JsError) (now : string) (db : Db)
  (q : Request) :
  let r := serve fault now db q in
  let lines := map fst (Logger.written env (log r)) in
  (reply_code r = ERROR_CODES.DATABASE_ERROR ->
   Logger.levels (Logger.level env) <> None ->
   lines = [error] /\ map fst (Logger.error_file (log r)) = [error])
  /\ (reply_code r = ERROR_CODES.NOT_FOUND ->
      lines = (if Logger.passes (Logger.level env) warn then [warn] else [])
      /\ Logger.error_file (log r) = [])
  /\ (reply_code r = ERROR_CODES.SUCCESS ->
      lines = (if Logger.passes (Logger.level env) info
               then (if writes q then [info]
                     else match q with GetHealth => [] | _ => [info] end)
               else [])
      /\ Logger.error_file (log r) = [])
  /\ (Logger.LOG_LEVEL env = None ->
      Logger.NODE_ENV env = Some "production" ->
      reply_code r = ERROR_CODES.SUCCESS -> lines = [])
  /\ (statements r = [] -> Logger.written env (log r) = []).
Proof.
  intros r lines.
  destruct (logger_calls_follow_code fault now db q) as (C3 & C2 & C0 & S).
  fold r in C3, C2, C0, S. unfold log_levels in *.
  assert (E : forall l, map fst (log r) = l ->
              lines = filter (Logger.passes (Logger.level env)) l
              /\ map fst (Logger.error_file (log r))
                 = filter (Logger.passes "error") l).
  { intros l <-. subst lines. split;
      [apply written_levels | apply error_file_levels]. }
  assert (N : forall l : list (Level * string), map fst l = [] -> l = [])
    by (intros [|x l]; [reflexivity | discriminate]).
  assert (H0 : reply_code r = ERROR_CODES.SUCCESS ->
               lines = (if Logger.passes (Logger.level env) info
                        then (if writes q then [info]
                              else match q with GetHealth => [] | _ => [info] end)
                        else [])
               /\ Logger.error_file (log r) = []).
  { intros H. destruct q as [| |b|id|id b|id];
      try (destruct (E _ (C0 H ltac:(discriminate))) as [E1 E2];
           rewrite E1; split;
           [simpl; destruct (Logger.passes (Logger.level env) info); reflexivity
           |apply N; rewrite E2; reflexivity]).
    subst lines r. simpl.
    destruct (Logger.passes (Logger.level env) info); split; reflexivity. }
  split; [|split; [|split; [|split]]].
  - intros H L. destruct (E _ (C3 H)) as [E1 E2]. rewrite E1, E2.
    destruct (Logger.levels (Logger.level env)) as [c|] eqn:Lc; [|contradiction].
    simpl. rewrite (error_always_passes _ _ Lc). split; reflexivity.
  - intros H. destruct (E _ (C2 H)) as [E1 E2]. rewrite E1. split.
    + simpl. destruct (Logger.passes (Logger.level env) warn); reflexivity.
    + apply N. rewrite E2. reflexivity.
  - exact H0.
  - intros Hl Hn H. destruct (H0 H) as [-> _].
    unfold Logger.level. rewrite Hl, Hn. reflexivity.
  - intros H. apply S in H. unfold Logger.written.
    rewrite (N _ H). reflexivity.
Qed.

Lemma written_lines_follow_code_witness :
  let production := Logger.mkEnv None (Some "production") in
  let development := Logger.mkEnv None None in
  let busy := Some {| message := "database is locked" |} in
  map fst (Logger.written production
             (log (serve busy "2024-01-01 12:00:05" db1 GetContacts))) = [error]
  /\ map fst (Logger.written production
                (log (serve None "2024-01-01 12:00:05" db1 (GetContact "7"))))
     = [warn]
  /\ map fst (Logger.written production
                (log (serve None "2024-01-01 12:00:05" db1 (PostContacts jane))))
     = []
  /\ map fst (Logger.written development
                (log (serve None "2024-01-01 12:00:05" db1 (PostContacts jane))))
     = [info].
Proof.
  intros production development busy.
  split; [|split; [|split]].
  - apply (written_lines_follow_code production busy
             "2024-01-01 12:00:05" db1 GetContacts);
      [reflexivity | discriminate].
  - apply (written_lines_follow_code production None
             "2024-01-01 12:00:05" db1 (GetContact "7")). reflexivity.
  - apply (written_lines_follow_code production None
             "2024-01-01 12:00:05" db1 (PostContacts jane)); reflexivity.
  - apply (written_lines_follow_code development None
             "2024-01-01 12:00:05" db1 (PostContacts jane)). reflexivity.
Defined.


(* ================================================================== *)
(** ** The test for a uniqueness violation *)
(* ================================================================== *)

Section Includes.

Lemma prefix_split (p s : string) :
  String.prefix p s = true <-> exists post, s = p ++ post.
Proof.
  revert s. induction p as [|c p IH]; intros s.
  - split; [intros _; exists s; reflexivity | intros _; destruct s; reflexivity].
  - destruct s as [|d s]; simpl;
      [split; [discriminate | intros [post H]; discriminate]|].
    destruct (Ascii.ascii_dec c d) as [->|N].
    + rewrite IH. split; intros [post H]; exists post.
      * rewrite H. reflexivity.
      * injection H as H. exact H.
    + split; [discriminate | intros [post H]; congruence].
Qed.

(** [includes] finds the text wherever it stands. *)
Lemma includes_split (s sub : string) :
  includes s sub = true <-> exists pre post, s = pre ++ sub ++ post.
Proof.
  induction s as [|c s IH].
  - cbn [includes]. rewrite orb_false_r, prefix_split. split.
    + intros [post H]. exists "", post. exact H.
    + intros (pre & post & H). destruct pre as [|d pre]; [|discriminate].
      exists post. exact H.
  - cbn [includes]. rewrite orb_true_iff, prefix_split, IH. split.
    + intros [[post H]|(pre & post & H)].
      * exists "", post. exact H.
      * exists (String c pre), post. simpl. rewrite H. reflexivity.
    + intros (pre & post & H). destruct pre as [|d pre].
      * left. exists post. exact H.
      * right. simpl in H. injection H as _ H. exists pre, post. exact H.
Qed.

Lemma unique_violation_split (e : JsError) :
  is_unique_violation e = true
  <-> exists pre post, message e = pre ++ "UNIQUE constraint failed" ++ post.
Proof.
  unfold is_unique_violation. rewrite <- includes_split.
  destruct (message e) as [|c m]; [split; discriminate|].
  reflexivity.
Qed.

End Includes.

(** X11. When the store throws on a create or an update of an accepted
    body, the answer is the validation failure with the message
    [Email already exists in the system] exactly when the message of
    the exception contains [UNIQUE constraint failed], at its start,
    its end or in between; otherwise it is the database failure.  The
    table stays as it was in both cases. *)
Theorem unique_violation_anywhere
  (e : JsError) (now : string) (db : Db) (id : string) (b : Body) :
  accepted b = true ->
  let c := post_contacts (Some e) now db b in
  let u := put_contact (Some e) db id b in
  ((exists pre post, message e = pre ++ "UNIQUE constraint failed" ++ post) ->
   response c = sendResponse 1 (JStr "Email already exists in the system") None
   /\ response u = sendResponse 1 (JStr "Email already exists in the system") None)
  /\ (~ (exists pre post, message e = pre ++ "UNIQUE constraint failed" ++ post) ->
      response c = sendResponse 3 (JStr "Failed to save data") None
      /\ response u = sendResponse 3 (JStr "Failed to update data") None)
  /\ db_after c = db /\ db_after u = db.
Proof.
  intros Hb c u. apply accepted_inv in Hb.
  destruct Hb as (Hn & Hp & Bn & Bp & Be & Ba).
  assert (Ec : c = {| db_after := db;
                      response :=
                        if is_unique_violation e
                        then sendResponse ERROR_CODES.VALIDATION_ERROR
                               (JStr ERROR_MESSAGES.EMAIL_ALREADY_EXISTS) None
                        else sendResponse ERROR_CODES.DATABASE_ERROR
                               (JStr ERROR_MESSAGES.DATA_SAVE_FAILED) None;
                      log := [(error, "Error creating contact")];
                      statements := [INSERT] |}).
  { subst c. unfold post_contacts. rewrite (validate_truthy _ _ Hn Hp).
    cbn [truthy]. unfold Sqlite.insert, and_then, guarded.
    rewrite (bound_of_bind _ Bn), (bound_of_bind _ Bp),
      (bound_of_bind _ (is_bool_or_null _ Be)),
      (bound_of_bind _ (is_bool_or_null _ Ba)).
    reflexivity. }
  assert (Eu : u = {| db_after := db;
                      response :=
                        if is_unique_violation e
                        then sendResponse ERROR_CODES.VALIDATION_ERROR
                               (JStr ERROR_MESSAGES.EMAIL_ALREADY_EXISTS) None
                        else sendResponse ERROR_CODES.DATABASE_ERROR
                               (JStr ERROR_MESSAGES.DATA_UPDATE_FAILED) None;
                      log := [(error, "Error updating contact")];
                      statements := [UPDATE] |}).
  { subst u. unfold put_contact. rewrite (validate_truthy _ _ Hn Hp).
    cbn [truthy]. unfold Sqlite.update, and_then, guarded.
    rewrite (bound_of_bind _ Bn), (bound_of_bind _ Bp),
      (bound_of_bind _ (is_bool_or_null _ Be)),
      (bound_of_bind _ (is_bool_or_null _ Ba)).
    reflexivity. }
  rewrite Ec, Eu. cbn [db_after response].
  split; [|split; [|split; reflexivity]].
  - intros H. apply unique_violation_split in H. rewrite H. split; reflexivity.
  - intros H. destruct (is_unique_violation e) eqn:V.
    + exfalso. apply H, unique_violation_split, V.
    + split; reflexivity.
Qed.

Lemma unique_violation_anywhere_witness :
  let e := {| message := "SqliteError: UNIQUE constraint failed: contacts.email" |} in
  response (post_contacts (Some e) "2024-01-01 12:00:05" db1 jane)
  = sendResponse 1 (JStr "Email already exists in the system") None
  /\ response (put_contact (Some e) db1 "1" jane)
     = sendResponse 1 (JStr "Email already exists in the system") None.
Proof.
  intros e.
  destruct (unique_violation_anywhere e "2024-01-01 12:00:05" db1 "1" jane
              eq_refl) as (H & _).
  apply H. exists "SqliteError: ", ": contacts.email". reflexivity.
Defined.

(* ================================================================== *)
(** ** What validation lets through *)
(* ================================================================== *)

(** X12. A create and an update reach the store exactly when [name]
    and [phone] are both truthy: a [name] or a [phone] that is [null],
    [false], [0], the empty string or missing is refused with
    [Required field is missing] and no statement is prepared, and any
    other pair is passed on to the statement. *)
Theorem store_reached_iff_truthy
  (fault : option JsError) (now : string) (db : Db) (id : string) (b : Body) :
  let c := post_contacts fault now db b in
  let u := put_contact fault db id b in
  (truthy (name b) && truthy (phone b) = false ->
   response c = sendResponse 1 (JStr "Required field is missing") None
   /\ response u = sendResponse 1 (JStr "Required field is missing") None
   /\ statements c = [] /\ statements u = [])
  /\ (truthy (name b) && truthy (phone b) = true ->
      statements c = [INSERT] /\ statements u = [UPDATE]
      /\ reply_msg c <> JStr "Required field is missing"
      /\ reply_msg u <> JStr "Required field is missing").
Proof.
  intros c u. subst c u. unfold post_contacts, put_contact, validateContactInput.
  destruct (truthy (name b)), (truthy (phone b)); cbn [negb orb andb truthy];
    (split; [intros H; try discriminate H; repeat split
            |intros H; try discriminate H]).
  destruct (Sqlite.insert _ _ _ _ _ _ _) as [[d res]|e];
    [|destruct (is_unique_violation e)];
    (destruct (Sqlite.update _ _ _ _ _ _ _) as [[d' res']|e'];
     [destruct (changes res' >? 0)|destruct (is_unique_violation e')]);
    repeat split; discriminate.
Qed.

Lemma store_reached_iff_truthy_witness :
  let b := mkBody (JNum 0) (JStr "123") JUndefined JUndefined in
  response (post_contacts None "2024-01-01 12:00:05" db1 b)
  = sendResponse 1 (JStr "Required field is missing") None
  /\ response (put_contact None db1 "1" b)
     = sendResponse 1 (JStr "Required field is missing") None
  /\ statements (post_contacts None "2024-01-01 12:00:05" db1 b) = []
  /\ statements (put_contact None db1 "1" b) = [].
Proof.
  intros b.
  destruct (store_reached_iff_truthy None "2024-01-01 12:00:05" db1 "1" b)
    as [H _].
  apply H. reflexivity.
Defined.

(* ================================================================== *)
(** ** The listing after a write *)
(* ================================================================== *)

Section ListingAfterWrite.








End ListingAfterWrite.




(** X16. A contact that a get returns is in the listing: the row
    found under an identifier is one of the rows that list returns. *)
Theorem found_contact_is_listed (db : Db) (id : string) (row : Row) :
  reply_data (get_contact None db id) = Some (Contact row) ->
  exists l,
    reply_data (get_contacts None db) = Some (Contacts l)
    /\ In row l /\ names id row = true.
Proof.
  unfold get_contact, select_by_id, guarded.
  destruct (find (matches (text_to_rowid id)) (rows db)) as [r|] eqn:F;
    [|discriminate].
  intros H. injection H as <-.
  apply find_some in F. destruct F as [Hin Hm].
  exists (order_by_created_at_desc (rows db)).
  split; [reflexivity|]. split; [|exact Hm].
  apply (Permutation_in _ (Permutation_sym (order_perm (rows db))) Hin).
Qed.

Lemma found_contact_is_listed_witness :
  exists l,
    reply_data (get_contacts None db1) = Some (Contacts l)
    /\ In (mkRow 1 (SqlText "John") (SqlText "123") SqlNull SqlNull
             "2024-01-01 12:00:00") l
    /\ names "1" (mkRow 1 (SqlText "John") (SqlText "123") SqlNull SqlNull
                    "2024-01-01 12:00:00") = true.
Proof.
  apply (found_contact_is_listed db1 "1"). reflexivity.
Defined.
